(** * Schiphol flight analyzer: geo-classification and noise estimation

    A shallow embedding of [src/schiphol_analyzer.py]
    (class [SchipholFlightAnalyzer]) and the properties of its row
    functions: distance and bearing sentinels, operation phase,
    approach corridor, noise estimate, noise tier and the aircraft
    category heuristic.

    Numbers.  A cell of a numeric DataFrame column is a float64; a
    missing value is the NaN cell ([opensky_fetcher._clean_flight_data]
    coerces every numeric column with [pd.to_numeric]).  A finite float
    is modelled by the rational number it denotes; the special values
    (infinities, NaN) and the way comparisons treat them are part of
    the model.  In the main embedding arithmetic on finite values is
    exact, which is enough for bounds, orderings and thresholds; where
    the exact value of the noise estimate matters, [Binary64] follows
    the rounding of every operation.

    Text.  [row] types the identifier and the callsign as the analyzer
    annotates them (a string, an optional string); [series] keeps the
    cells as Python finds them, including the NaN of a missing value. *)

From Stdlib Require Import QArith Qround Qabs Qminmax Qpower ZArith Lqa Lia.
From Stdlib Require Import String Ascii List Bool.
Import ListNotations.

Local Open Scope Q_scope.

(** ** Python floats *)

Module PyFloat.

Inductive pyfloat : Type :=
| Fin (q : Q)
| PInf
| NInf
| NaN.

(** [pd.isna] on a float cell. *)
Definition isna (x : pyfloat) : bool :=
  match x with NaN => true | _ => false end.

(** Ordering of two floats; [None] when they are unordered (a NaN is
    involved), in which case every comparison operator answers False. *)
Definition compare (x y : pyfloat) : option comparison :=
  match x, y with
  | NaN, _ | _, NaN => None
  | Fin a, Fin b => Some (Qcompare a b)
  | PInf, PInf | NInf, NInf => Some Eq
  | NInf, _ | _, PInf => Some Lt
  | PInf, _ | _, NInf => Some Gt
  end.

Definition ltb (x y : pyfloat) : bool :=
  match compare x y with Some Lt => true | _ => false end.
Definition gtb (x y : pyfloat) : bool :=
  match compare x y with Some Gt => true | _ => false end.
Definition leb (x y : pyfloat) : bool :=
  match compare x y with Some Lt | Some Eq => true | _ => false end.
Definition geb (x y : pyfloat) : bool :=
  match compare x y with Some Gt | Some Eq => true | _ => false end.
Definition eqb (x y : pyfloat) : bool :=
  match compare x y with Some Eq => true | _ => false end.

(** The builtins [max(a, b)] and [min(a, b)]: the first argument is
    kept unless the second one compares strictly beyond it. *)
Definition pymax (a b : pyfloat) : pyfloat := if gtb b a then b else a.
Definition pymin (a b : pyfloat) : pyfloat := if ltb b a then b else a.

Definition neg (x : pyfloat) : pyfloat :=
  match x with
  | Fin a => Fin (- a)
  | PInf => NInf
  | NInf => PInf
  | NaN => NaN
  end.

Definition add (x y : pyfloat) : pyfloat :=
  match x, y with
  | NaN, _ | _, NaN => NaN
  | Fin a, Fin b => Fin (a + b)
  | PInf, NInf | NInf, PInf => NaN
  | PInf, _ | _, PInf => PInf
  | NInf, _ | _, NInf => NInf
  end.

Definition sub (x y : pyfloat) : pyfloat := add x (neg y).

(** The product of an infinity (positive or negative) with the finite
    [q]: an infinity of the product's sign, NaN when [q] is zero. *)
Definition signed_inf (positive : bool) (q : Q) : pyfloat :=
  match Qcompare q 0 with
  | Eq => NaN
  | Gt => if positive then PInf else NInf
  | Lt => if positive then NInf else PInf
  end.

Definition mul (x y : pyfloat) : pyfloat :=
  match x, y with
  | NaN, _ | _, NaN => NaN
  | Fin a, Fin b => Fin (a * b)
  | PInf, Fin b => signed_inf true b
  | NInf, Fin b => signed_inf false b
  | Fin a, PInf => signed_inf true a
  | Fin a, NInf => signed_inf false a
  | PInf, PInf | NInf, NInf => PInf
  | PInf, NInf | NInf, PInf => NInf
  end.

(** Division of float64 scalars (a zero divisor yields an infinity or
    NaN, as numpy does; the only divisor in the source is the literal
    1000). *)
Definition div (x y : pyfloat) : pyfloat :=
  match x, y with
  | NaN, _ | _, NaN => NaN
  | Fin a, Fin b => if Qeq_bool b 0 then signed_inf true a else Fin (a / b)
  | Fin _, (PInf | NInf) => Fin 0
  | PInf, Fin b => if Qle_bool 0 b then PInf else NInf
  | NInf, Fin b => if Qle_bool 0 b then NInf else PInf
  | (PInf | NInf), (PInf | NInf) => NaN
  end.

(** [x % y]: the remainder takes the sign of the divisor. *)
Definition pymod (x y : pyfloat) : pyfloat :=
  match x, y with
  | Fin a, Fin b =>
      if Qeq_bool b 0 then NaN
      else Fin (a - b * inject_Z (Qfloor (a / b)))
  | Fin a, PInf => if Qle_bool 0 a then Fin a else PInf
  | Fin a, NInf => if Qle_bool a 0 then Fin a else NInf
  | _, _ => NaN
  end.

(** Rounding to the nearest integer, ties to the even one. *)
Definition round_half_even (t : Q) : Z :=
  let f := Qfloor t in
  match Qcompare (t - inject_Z f) (1 # 2) with
  | Lt => f
  | Gt => (f + 1)%Z
  | Eq => if Z.even f then f else (f + 1)%Z
  end.

(** [round(x, ndigits)] on a float: nearest multiple of [10^-ndigits],
    ties to even; infinities and NaN are returned unchanged. *)
Definition pyround (x : pyfloat) (ndigits : nat) : pyfloat :=
  match x with
  | Fin q =>
      let scale := inject_Z (10 ^ Z.of_nat ndigits) in
      Fin (inject_Z (round_half_even (q * scale)) / scale)
  | other => other
  end.

(** Two floats denote the same value. *)
Definition same (x y : pyfloat) : Prop :=
  match x, y with
  | Fin a, Fin b => a == b
  | PInf, PInf | NInf, NInf | NaN, NaN => True
  | _, _ => False
  end.

End PyFloat.

Import PyFloat.

Declare Scope pyfloat_scope.
Delimit Scope pyfloat_scope with py.
Bind Scope pyfloat_scope with pyfloat.
Infix "+" := add : pyfloat_scope.
Infix "-" := sub : pyfloat_scope.
Infix "*" := mul : pyfloat_scope.
Infix "/" := div : pyfloat_scope.
Infix "%%" := pymod (at level 40, left associativity) : pyfloat_scope.
Infix "<?" := ltb : pyfloat_scope.
Infix "<=?" := leb : pyfloat_scope.
Infix ">?" := gtb (at level 70) : pyfloat_scope.
Infix ">=?" := geb (at level 70) : pyfloat_scope.
Infix "=?" := eqb : pyfloat_scope.
Infix "~=" := same (at level 70) : type_scope.

Coercion Fin : Q >-> pyfloat.

(** ** Exceptions *)

(** The exceptions the analyzer can let escape: [ValueError] from a
    library that rejects its arguments, [AttributeError] from a string
    method called on a cell that is not a string. *)
Inductive exn : Type :=
| ValueError
| AttributeError.

Inductive result (A : Type) : Type :=
| Ok (a : A)
| Raise (e : exn).
Arguments Ok {A} a.
Arguments Raise {A} e.

Definition bind {A B : Type} (m : result A) (k : A -> result B) : result B :=
  match m with
  | Ok a => k a
  | Raise e => Raise e
  end.

Notation "x <- m ;; k" := (bind m (fun x => k))
  (at level 61, m at next level, right associativity).

(** [df.apply(f, axis=1)]: the rows in order, the first exception aborts. *)
Fixpoint apply_rows {A B : Type} (f : A -> result B) (df : list A)
  : result (list B) :=
  match df with
  | [] => Ok []
  | r :: rest =>
      b <- f r ;;
      bs <- apply_rows f rest ;;
      Ok (b :: bs)
  end.

(** ** Python strings (ASCII text) *)

Module PyStr.

Local Open Scope string_scope.

Definition is_lower (c : ascii) : bool :=
  let n := nat_of_ascii c in (97 <=? n)%nat && (n <=? 122)%nat.

Definition upper_char (c : ascii) : ascii :=
  if is_lower c then ascii_of_nat (nat_of_ascii c - 32) else c.

(** [s.upper()] *)
Fixpoint upper (s : string) : string :=
  match s with
  | EmptyString => EmptyString
  | String c rest => String (upper_char c) (upper rest)
  end.

(** The characters [str.strip()] removes: tab, line feed, vertical
    tab, form feed, carriage return, the four separators 0x1c-0x1f and
    the space. *)
Definition is_space (c : ascii) : bool :=
  let n := nat_of_ascii c in
  ((9 <=? n)%nat && (n <=? 13)%nat)
  || ((28 <=? n)%nat && (n <=? 32)%nat).

Fixpoint lstrip (s : string) : string :=
  match s with
  | EmptyString => EmptyString
  | String c rest => if is_space c then lstrip rest else s
  end.

Fixpoint rstrip (s : string) : string :=
  match s with
  | EmptyString => EmptyString
  | String c rest =>
      match rstrip rest with
      | EmptyString => if is_space c then EmptyString else String c EmptyString
      | rest' => String c rest'
      end
  end.

(** [s.strip()] *)
Definition strip (s : string) : string := rstrip (lstrip s).

(** [s.startswith(p)] *)
Definition startswith (s p : string) : bool := String.prefix p s.

(** [s.startswith((p1, ..., pn))] and [any(s.startswith(p) for p in ps)] *)
Definition startswith_any (s : string) (ps : list string) : bool :=
  existsb (startswith s) ps.

(** Truth value of a string: empty is false. *)
Definition truthy (s : string) : bool :=
  match s with EmptyString => false | _ => true end.

End PyStr.

Import PyStr.

(** ** External libraries

    [geopy.distance.geodesic] and the [math] module are not part of the
    repository: the analyzer is parametrised by them.  [geodesic_km p q]
    stands for [geodesic(p, q).kilometers], which raises [ValueError]
    on coordinates it rejects. *)

Definition coords : Type := pyfloat * pyfloat.

(** Latitude within [-90, 90] and longitude within [-180, 180]. *)
Definition valid_point (lat lon : Q) : bool :=
  Qle_bool (-90) lat && Qle_bool lat 90
  && Qle_bool (-180) lon && Qle_bool lon 180.

Definition valid_coords (c : coords) : Prop :=
  match c with
  | (Fin lat, Fin lon) => valid_point lat lon = true
  | _ => False
  end.

(** What is assumed of geopy: between two valid points the distance is
    returned, finite and non-negative. *)
Class Geopy : Type := {
  geodesic_km : coords -> coords -> result pyfloat;
  geodesic_km_valid :
    forall p q : coords, valid_coords p -> valid_coords q ->
    exists d : Q, geodesic_km p q = Ok (Fin d) /\ 0 <= d
}.

Class MathModule : Type := {
  math_radians : pyfloat -> pyfloat;
  math_degrees : pyfloat -> pyfloat;
  math_sin : pyfloat -> pyfloat;
  math_cos : pyfloat -> pyfloat;
  math_atan2 : pyfloat -> pyfloat -> pyfloat
}.

(** ** Rows and derived columns *)

(** One row of the flight DataFrame: the columns the analyzer reads. *)
Record row : Type := {
  icao24 : string;
  callsign : option string;
  latitude : pyfloat;
  longitude : pyfloat;
  baro_altitude : pyfloat
}.

(** Columns added by [calculate_noise_impact]. *)
Record noise_columns : Type := {
  distance_km : pyfloat;
  estimated_noise_db : pyfloat;
  noise_impact : string
}.

(** Columns added by [identify_schiphol_operations]; the bearing cell
    holds [None] when the coordinates are missing. *)
Record operation_columns : Type := {
  distance_to_schiphol_km : pyfloat;
  bearing_from_schiphol_deg : option pyfloat;
  schiphol_operation : string;
  approach_corridor : string
}.

(** The dictionary returned by [classify_aircraft_by_icao]; the early
    return carries no [likely_*] keys. *)
Record classification : Type := {
  type : string;
  category : string;
  noise_level : string;
  likely_commercial : option bool;
  likely_private : option bool
}.

Record corridor_info : Type := {
  bearing_range : Q * Q;
  description : string
}.

Record airline_info : Type := {
  airline_type : string;
  airline_category : string
}.

(** [float('inf')] *)
Definition infinity : pyfloat := PInf.

Module SchipholFlightAnalyzer.

Local Open Scope string_scope.

Definition schiphol_coords : coords := (Fin 52.3105, Fin 4.7683).

(** [self.approach_corridors], in declaration order. *)
Definition approach_corridors : list (string * corridor_info) :=
  [ ("north",
      {| bearing_range := (315, 45);
         description := "Northern approach (over Amsterdam Noord)" |});
    ("northeast",
      {| bearing_range := (45, 90); description := "Northeastern approach" |});
    ("east",
      {| bearing_range := (90, 135); description := "Eastern approach" |});
    ("southeast",
      {| bearing_range := (135, 180); description := "Southeastern approach" |});
    ("south",
      {| bearing_range := (180, 225); description := "Southern approach" |});
    ("southwest",
      {| bearing_range := (225, 270); description := "Southwestern approach" |});
    ("west",
      {| bearing_range := (270, 315);
         description := "Western approach (over North Sea)" |}) ].

(** *** classify_aircraft_by_icao *)

Definition airline_patterns : list (string * airline_info) :=
  [ ("KLM", {| airline_type := "Commercial Airline"; airline_category := "Major Carrier" |});
    ("TRA", {| airline_type := "Transavia"; airline_category := "Low Cost Carrier" |});
    ("EZY", {| airline_type := "EasyJet"; airline_category := "Low Cost Carrier" |});
    ("RYR", {| airline_type := "Ryanair"; airline_category := "Low Cost Carrier" |});
    ("BAW", {| airline_type := "British Airways"; airline_category := "Major Carrier" |});
    ("DLH", {| airline_type := "Lufthansa"; airline_category := "Major Carrier" |});
    ("AFR", {| airline_type := "Air France"; airline_category := "Major Carrier" |});
    ("UAE", {| airline_type := "Emirates"; airline_category := "Major Carrier" |});
    ("QTR", {| airline_type := "Qatar Airways"; airline_category := "Major Carrier" |}) ].

Definition private_patterns : list string := ["N"; "G-"; "PH-"; "D-"; "F-"].

Definition set_category (c : classification) (v : string) : classification :=
  {| type := type c; category := v; noise_level := noise_level c;
     likely_commercial := likely_commercial c;
     likely_private := likely_private c |}.

Definition set_likely_commercial (c : classification) (v : bool) : classification :=
  {| type := type c; category := category c; noise_level := noise_level c;
     likely_commercial := Some v;
     likely_private := likely_private c |}.

Definition set_likely_private (c : classification) (v : bool) : classification :=
  {| type := type c; category := category c; noise_level := noise_level c;
     likely_commercial := likely_commercial c;
     likely_private := Some v |}.

(** [classification.update(info)] *)
Definition update (c : classification) (info : airline_info) : classification :=
  {| type := airline_type info; category := airline_category info;
     noise_level := noise_level c;
     likely_commercial := likely_commercial c;
     likely_private := likely_private c |}.

(** The loop over the pattern table: the first pattern the callsign
    starts with updates the classification and breaks. *)
Fixpoint match_airline (patterns : list (string * airline_info))
  (callsign : string) (c : classification) : classification :=
  match patterns with
  | [] => c
  | (pattern, info) :: rest =>
      if startswith callsign pattern
      then set_likely_commercial (update c info) true
      else match_airline rest callsign c
  end.

Definition classify_aircraft_by_icao (icao24 : string) (callsign : option string)
  : classification :=
  if negb (truthy icao24) then
    {| type := "Unknown"; category := "Unknown"; noise_level := "Unknown";
       likely_commercial := None; likely_private := None |}
  else
    let icao24 := strip (upper icao24) in
    let classification :=
      {| type := "Unknown"; category := "Unknown"; noise_level := "Unknown";
         likely_commercial := Some false; likely_private := Some false |} in
    let classification :=
      if startswith_any icao24 ["4"; "D"; "G"; "F"; "I"] then
        set_category (set_likely_commercial classification true) "Commercial"
      else if startswith_any icao24 ["A"; "C"] then
        set_category (set_likely_private classification true) "Private/Corporate"
      else if startswith icao24 "PH" then
        set_category classification "Netherlands Registered"
      else classification in
    match callsign with
    | None => classification
    | Some callsign =>
        if truthy callsign then
          let callsign := upper (strip callsign) in
          let classification := match_airline airline_patterns callsign classification in
          if startswith_any callsign private_patterns
             && (String.length callsign <=? 6)%nat
          then set_category (set_likely_private classification true)
                 "Private/General Aviation"
          else classification
        else classification
    end.

(** *** calculate_noise_impact *)

Definition calc_distance `{Geopy} (target_coords : coords) (r : row)
  : result pyfloat :=
  if isna (latitude r) || isna (longitude r) then Ok infinity
  else geodesic_km (latitude r, longitude r) target_coords.

(** [estimate_noise(row)], reading [row['baro_altitude']] and
    [row['distance_km']]. *)
Definition estimate_noise (row_baro_altitude row_distance_km : pyfloat) : pyfloat :=
  if isna row_baro_altitude || (row_distance_km =? infinity)%py then Fin 0
  else
    let altitude_ft := pymax row_baro_altitude 100 in
    let distance_km := pymax row_distance_km 0.1 in
    let base_noise : pyfloat := 80 in
    let altitude_reduction := pymin (altitude_ft / 1000 * 5)%py 40 in
    let distance_reduction := pymin (distance_km * 2)%py 20 in
    let estimated_noise :=
      pymax (base_noise - altitude_reduction - distance_reduction)%py 30 in
    pyround estimated_noise 1.

Definition noise_impact_level (noise_db : pyfloat) : string :=
  if (noise_db >=? 65)%py then "High Impact"
  else if (noise_db >=? 55)%py then "Moderate Impact"
  else if (noise_db >=? 45)%py then "Low Impact"
  else "Minimal Impact".

Definition noise_impact_row `{Geopy} (target_coords : coords) (r : row)
  : result noise_columns :=
  d <- calc_distance target_coords r ;;
  let noise := estimate_noise (baro_altitude r) d in
  Ok {| distance_km := d;
        estimated_noise_db := noise;
        noise_impact := noise_impact_level noise |}.


(** *** identify_schiphol_operations *)

Definition distance_to_schiphol `{Geopy} (r : row) : result pyfloat :=
  if isna (latitude r) || isna (longitude r) then Ok infinity
  else geodesic_km (latitude r, longitude r) schiphol_coords.

(** The body of [bearing_from_schiphol] past its guard, in two steps.
    First the initial great-circle bearing in degrees, as [atan2]
    returns it (between -180 and 180). *)
Definition great_circle_bearing `{MathModule} (r : row) : pyfloat :=
  let lat1 := math_radians (fst schiphol_coords) in
  let lon1 := math_radians (snd schiphol_coords) in
  let lat2 := math_radians (latitude r) in
  let lon2 := math_radians (longitude r) in
  let dlon := (lon2 - lon1)%py in
  let y := (math_sin dlon * math_cos lat2)%py in
  let x := (math_cos lat1 * math_sin lat2
            - math_sin lat1 * math_cos lat2 * math_cos dlon)%py in
  let bearing := math_atan2 y x in
  math_degrees bearing.

(** Then [bearing = (bearing + 360) % 360] and [round(bearing, 1)]. *)
Definition normalize_bearing (bearing : pyfloat) : pyfloat :=
  let bearing := ((bearing + 360) %% 360)%py in
  pyround bearing 1.

Definition bearing_from_schiphol `{MathModule} (r : row) : option pyfloat :=
  if isna (latitude r) || isna (longitude r) then None
  else Some (normalize_bearing (great_circle_bearing r)).

(** [row.get(key, default)]: the cell under [key], or [default] when the
    row has no such key, that is when the frame has no such column. *)
Definition row_get {A : Type} (cell : option A) (default : A) : A :=
  match cell with
  | Some v => v
  | None => default
  end.

(** The decision table of [classify_operation(row)], on the two values
    the function reads at its first two lines:
    [distance = row['distance_to_schiphol_km']] and
    [altitude = row.get('baro_altitude', 0)]. *)
Definition classify_operation (distance altitude : pyfloat) : string :=
  if (distance =? infinity)%py then "Unknown"
  else if (distance <? 5)%py then
    if (altitude <? 1000)%py then "Landing/Takeoff" else "Airport Vicinity"
  else if (distance <? 15)%py then
    if (altitude <? 5000)%py then "Approach/Departure" else "Transit (Low)"
  else if (distance <? 30)%py then
    if (altitude <? 10000)%py then "Extended Approach" else "Transit (Medium)"
  else "Transit (High)".

(** [classify_operation(row)] with its two reads: [baro_altitude] is
    the cell of the altitude column, [None] for a row of a frame that
    has no such column; [row.get] then supplies the default 0. *)
Definition classify_operation_row (distance_to_schiphol_km : pyfloat)
  (baro_altitude : option pyfloat) : string :=
  let distance := distance_to_schiphol_km in
  let altitude := row_get baro_altitude (Fin 0) in
  classify_operation distance altitude.

(** The loop of [identify_corridor] over a corridor table. *)
Fixpoint find_corridor (corridors : list (string * corridor_info))
  (bearing : pyfloat) : string :=
  match corridors with
  | [] => "Other"
  | (corridor_name, corridor_info) :: rest =>
      let '(start, end_) := bearing_range corridor_info in
      if Qle_bool start end_ then
        if (start <=? bearing)%py && (bearing <=? end_)%py then corridor_name
        else find_corridor rest bearing
      else
        if (bearing >=? start)%py || (bearing <=? end_)%py then corridor_name
        else find_corridor rest bearing
  end.

Definition identify_corridor (bearing : option pyfloat) : string :=
  match bearing with
  | None => "Unknown"
  | Some b =>
      if isna b then "Unknown" else find_corridor approach_corridors b
  end.

Definition schiphol_operations_row `{Geopy} `{MathModule} (r : row)
  : result operation_columns :=
  d <- distance_to_schiphol r ;;
  let bearing := bearing_from_schiphol r in
  Ok {| distance_to_schiphol_km := d;
        bearing_from_schiphol_deg := bearing;
        schiphol_operation := classify_operation d (baro_altitude r);
        approach_corridor := identify_corridor bearing |}.

Definition identify_schiphol_operations `{Geopy} `{MathModule}
  (flight_data : list row) : result (list operation_columns) :=
  apply_rows schiphol_operations_row flight_data.

End SchipholFlightAnalyzer.

(** ** Processing one report

    The data-processing prefix of [analyze_residential_impact]: noise
    columns for the target location, Schiphol operation columns, then
    the aircraft classification. *)

Record classified_row : Type := {
  noise : noise_columns;
  operations : operation_columns;
  aircraft : classification
}.

Definition process_row `{Geopy} `{MathModule} (target_coords : coords) (r : row)
  : result classified_row :=
  n <- SchipholFlightAnalyzer.noise_impact_row target_coords r ;;
  o <- SchipholFlightAnalyzer.schiphol_operations_row r ;;
  Ok {| noise := n;
        operations := o;
        aircraft :=
          SchipholFlightAnalyzer.classify_aircraft_by_icao (icao24 r) (callsign r) |}.

Definition process_flight_data `{Geopy} `{MathModule} (flight_data : list row)
  (target_coords : coords) : result (list classified_row) :=
  apply_rows (process_row target_coords) flight_data.

(** A report of the input type of the specification (section 6): its
    coordinates are undefined, or finite and within range. *)
Definition well_formed (r : row) : Prop :=
  isna (latitude r) || isna (longitude r) = true
  \/ valid_coords (latitude r, longitude r).

(** ** Rows with untyped text cells

    The identifier and callsign columns have dtype object: a cell holds
    a string, [None], or the float NaN that pandas stores for a missing
    value.  [classify_aircraft_by_icao] is annotated for strings; what
    it does with the two other kinds of cell is what Python does with
    them: [None] is falsy, NaN is truthy and has no string methods. *)

Inductive cell : Type :=
| Text (s : string)
| PyNone
| Missing.









(** ** The noise formula of the specification

    Section 4.1, step 5 of the specification, in its own words:
    [noise_db = max(floor_db, base_db - min(altitude_ft/1000 * alt_coeff,
    alt_cap) - min(distance_km * dist_coeff, dist_cap))].  It is the
    reference [estimate_noise] is compared with. *)

Module NoiseSpec.

Record noise_config : Type := {
  base_db : Q;
  alt_coeff : Q;
  alt_cap : Q;
  dist_coeff : Q;
  dist_cap : Q;
  floor_db : Q
}.

Definition defaults : noise_config :=
  {| base_db := 80; alt_coeff := 5; alt_cap := 40;
     dist_coeff := 2; dist_cap := 20; floor_db := 30 |}.

Definition noise_db (c : noise_config) (altitude_ft distance_km : Q) : Q :=
  Qmax (floor_db c)
    (base_db c
     - Qmin (altitude_ft / 1000 * alt_coeff c) (alt_cap c)
     - Qmin (distance_km * dist_coeff c) (dist_cap c)).

(** One decimal place, ties to even. *)
Definition round1 (q : Q) : Q := inject_Z (round_half_even (q * 10)) / 10.

End NoiseSpec.

(** ** Binary64 arithmetic

    In the embedding above arithmetic on finite floats is exact.  The
    interpreter rounds the result of every operation to the nearest
    binary64 number.  [fl] stands for that rounding, known by the laws
    of round-to-nearest: it is monotone, it keeps the integers up to
    2^53, and within the normal range its relative error is at most
    2^-53.  Overflow to an infinity is not followed: [fl] of a number
    beyond the largest float is some number at least as large as every
    float below it. *)

Definition unit_roundoff : Q := 1 # (2 ^ 53).
Definition smallest_normal : Q := 1 # (2 ^ 1022).
Definition largest_power : Q := inject_Z (2 ^ 1023).

(** The most one rounding moves a number up to 128: [128 * 2^-53]. *)
Definition float_error : Q := 1 # (2 ^ 46).

Class Float64 : Type := {
  fl : Q -> Q;
  fl_compat : forall x y : Q, x == y -> fl x == fl y;
  fl_monotone : forall x y : Q, x <= y -> fl x <= fl y;
  fl_integer :
    forall z : Z, (Z.abs z <= 2 ^ 53)%Z -> fl (inject_Z z) == inject_Z z;
  fl_error :
    forall x : Q, smallest_normal <= Qabs x -> Qabs x <= largest_power ->
    Qabs (fl x - x) <= unit_roundoff * Qabs x
}.

(** Round-to-nearest, ties to even, with the 53-bit significand and the
    subnormal range of binary64 ([binary64] below shows that it has the
    laws of [Float64]). *)

Module IEEE754.

Definition pow2 (e : Z) : Q := Qpower 2 e.

(** For a positive [x], the exponent [e] with [2^e <= x < 2^(e+1)]. *)
Definition floor_log2 (x : Q) : Z :=
  if Qle_bool 1 x then Z.log2 (Qfloor x)
  else (- Z.log2_up (Qceiling (/ x)))%Z.

(** The exponent of the unit in the last place of the floats around a
    positive [x]: 52 below its leading bit, and not below -1074. *)
Definition ulp_exponent (x : Q) : Z := Z.max (floor_log2 x - 52) (-1074).

Definition round_positive (x : Q) : Q :=
  let e := ulp_exponent x in
  inject_Z (round_half_even (x / pow2 e)) * pow2 e.

Definition round_nearest_even (x : Q) : Q :=
  match Qcompare x 0 with
  | Eq => 0
  | Gt => round_positive x
  | Lt => - round_positive (- x)
  end.

End IEEE754.

(** Exact arithmetic is the rounding that changes nothing. *)
Definition exact_arithmetic : Float64.
Proof.
  refine {| fl := fun x => x |}.
  - intros x y E. exact E.
  - intros x y L. exact L.
  - intros z _. reflexivity.
  - intros x _ _.
    assert (E : x - x == 0) by ring. rewrite E.
    apply Qmult_le_0_compat; [discriminate | apply Qabs_nonneg].
Defined.

Module Binary64.

(** The float an operation returns when its exact result is [x]. *)
Definition rnd `{Float64} (x : pyfloat) : pyfloat :=
  match x with
  | Fin q => Fin (fl q)
  | other => other
  end.

(** [estimate_noise(row)] with the rounding of every operation.  The
    integer literals are floats as they stand; the literal 0.1 is the
    float nearest to one tenth.  [round(x, 1)] returns the float nearest
    to the one-decimal number nearest to the float [x]; the result is
    kept as that decimal number. *)
Definition estimate_noise `{Float64} (row_baro_altitude row_distance_km : pyfloat)
  : pyfloat :=
  if isna row_baro_altitude || (row_distance_km =? infinity)%py then Fin 0
  else
    let altitude_ft := pymax row_baro_altitude 100 in
    let distance_km := pymax row_distance_km (rnd 0.1) in
    let base_noise : pyfloat := 80 in
    let altitude_reduction :=
      pymin (rnd (rnd (altitude_ft / 1000) * 5))%py 40 in
    let distance_reduction := pymin (rnd (distance_km * 2))%py 20 in
    let estimated_noise :=
      pymax (rnd (rnd (base_noise - altitude_reduction) - distance_reduction))%py
            30 in
    pyround estimated_noise 1.

(** The value [estimate_noise] holds before [round], on finite inputs. *)
Definition unrounded `{Float64} (a d : Q) : Q :=
  Qmax (fl (fl (80 - Qmin (fl (fl (Qmax a 100 / 1000) * 5)) 40)
            - Qmin (fl (Qmax d (fl 0.1) * 2)) 20)) 30.

End Binary64.

(** ** Stand-ins for the external libraries

    Rational stand-ins used to run the model on concrete rows.  The
    distance rejects what geopy rejects (non-finite or out-of-range
    coordinates) and otherwise measures the degree offsets at 111 km per
    degree; the [math] functions are low-order rational approximations. *)

Module Sample.

Definition degree_offset_km (p q : coords) : result pyfloat :=
  match p, q with
  | (Fin a, Fin b), (Fin c, Fin d) =>
      if valid_point a b && valid_point c d
      then Ok (Fin (111 * (Qabs (a - c) + Qabs (b - d))))
      else Raise ValueError
  | _, _ => Raise ValueError
  end.

#[export, refine] Instance geopy : Geopy :=
  {| geodesic_km := degree_offset_km; geodesic_km_valid := _ |}.
Proof.
  intros [[a| | |] [b| | |]] [[c| | |] [d| | |]]; simpl; try contradiction.
  intros Hp Hq. rewrite Hp, Hq. simpl.
  exists (111 * (Qabs (a - c) + Qabs (b - d))). split; [reflexivity|].
  pose proof (Qabs_nonneg (a - c)). pose proof (Qabs_nonneg (b - d)).
  apply Qmult_le_0_compat; [discriminate|].
  apply Qle_trans with (0 + 0); [discriminate|].
  apply Qplus_le_compat; assumption.
Defined.

Definition pi : Q := 355 # 113.

Definition on_finite (f : Q -> Q) (x : pyfloat) : pyfloat :=
  match x with Fin q => Fin (Qred (f q)) | _ => NaN end.

Definition sin_poly (x : Q) : Q :=
  x - x^3 / 6 + x^5 / 120 - x^7 / 5040.

Definition cos_poly (x : Q) : Q :=
  1 - x^2 / 2 + x^4 / 24 - x^6 / 720.

(** [atan t] for [|t| <= 1]. *)
Definition atan_unit (t : Q) : Q := t / (1 + (28 # 100) * t * t).

Definition atan2_approx (y x : Q) : Q :=
  if Qeq_bool x 0 && Qeq_bool y 0 then 0
  else if Qle_bool (Qabs y) (Qabs x) then
    let a := atan_unit (y / x) in
    if Qle_bool 0 x then a
    else if Qle_bool 0 y then a + pi else a - pi
  else
    let a := atan_unit (x / y) in
    if Qle_bool 0 y then pi / 2 - a else - (pi / 2) - a.

#[export] Instance math : MathModule := {|
  math_radians := on_finite (fun x => x * pi / 180);
  math_degrees := on_finite (fun x => x * 180 / pi);
  math_sin := on_finite sin_poly;
  math_cos := on_finite cos_poly;
  math_atan2 := fun y x =>
    match y, x with
    | Fin a, Fin b => Fin (Qred (atan2_approx a b))
    | _, _ => NaN
    end
|}.

(** The residence used by the collectors (Amsterdam Noord). *)
Definition house_coords : coords := (Fin 52.395, Fin 4.915).

Definition flight (lat lon alt : pyfloat) : row :=
  {| icao24 := "484506"; callsign := Some "KLM123"%string;
     latitude := lat; longitude := lon; baro_altitude := alt |}.


End Sample.

(** ** Counting rows

    [len(df[mask])] and the per-label counts of
    [column.value_counts().to_dict()] (a label that does not occur has no
    key: its count reads as 0). *)

Definition count_rows {A : Type} (mask : A -> bool) (df : list A) : nat :=
  length (filter mask df).

Definition value_counts (column : list string) (label : string) : nat :=
  count_rows (String.eqb label) column.

(** [column.isin(labels)] *)
Definition isin (labels : list string) (v : string) : bool :=
  existsb (String.eqb v) labels.

(** [series.mean()] and [series.max()]: NaN cells are skipped, an empty
    selection gives NaN. *)
Definition dropna (column : list pyfloat) : list pyfloat :=
  filter (fun x => negb (isna x)) column.

Definition series_sum (column : list pyfloat) : pyfloat :=
  fold_left add (dropna column) (Fin 0).

Definition series_mean (column : list pyfloat) : pyfloat :=
  match dropna column with
  | [] => NaN
  | xs => (series_sum column / Fin (inject_Z (Z.of_nat (length xs))))%py
  end.

Definition series_max (column : list pyfloat) : pyfloat :=
  match dropna column with
  | [] => NaN
  | x :: xs => fold_left pymax xs x
  end.

(** ** analyze_residential_impact (schiphol_analyzer.py)

    The noise, operations and aircraft sections of the dictionary it
    returns, computed from the processed frame; the header keys and the
    temporal section (which read the clock and the [data_time] column)
    are left out. *)

Module ResidentialImpact.

Local Open Scope string_scope.

Record noise_analysis : Type := {
  impact_distribution : string -> nat;
  high_impact_flights : nat;
  average_noise_level : pyfloat;
  max_noise_level : pyfloat
}.

Record schiphol_operations : Type := {
  operation_types : string -> nat;
  approach_corridors : string -> nat;
  likely_schiphol_traffic : nat;
  direct_overhead : nat
}.

Record aircraft_analysis : Type := {
  categories : string -> nat;
  commercial_flights : nat;
  private_flights : nat;
  commercial_percentage : pyfloat;
  private_percentage : pyfloat
}.

Record analysis : Type := {
  total_flights : nat;
  noise_section : noise_analysis;
  operations_section : schiphol_operations;
  aircraft_section : aircraft_analysis
}.

Definition column {A : Type} (f : classified_row -> A) (df : list classified_row)
  : list A := map f df.

(** [round((n / len(df)) * 100, 1)] *)
Definition percentage (n total : nat) : pyfloat :=
  pyround ((Fin (inject_Z (Z.of_nat n)) / Fin (inject_Z (Z.of_nat total)))
           * Fin 100)%py 1.

Definition summarize (df : list classified_row) : analysis :=
  let noise_db := column (fun c => estimated_noise_db (noise c)) df in
  let commercial :=
    count_rows (fun c => match likely_commercial (aircraft c) with
                         | Some true => true | _ => false end) df in
  let private :=
    count_rows (fun c => match likely_private (aircraft c) with
                         | Some true => true | _ => false end) df in
  {| total_flights := length df;
     noise_section :=
       {| impact_distribution :=
            value_counts (column (fun c => noise_impact (noise c)) df);
          high_impact_flights :=
            count_rows (fun c => (estimated_noise_db (noise c) >=? 65)%py) df;
          average_noise_level := pyround (series_mean noise_db) 1;
          max_noise_level := pyround (series_max noise_db) 1 |};
     operations_section :=
       {| operation_types :=
            value_counts (column (fun c => schiphol_operation (operations c)) df);
          approach_corridors :=
            value_counts (column (fun c => approach_corridor (operations c)) df);
          likely_schiphol_traffic :=
            count_rows
              (fun c => (distance_to_schiphol_km (operations c) <? 30)%py) df;
          direct_overhead :=
            count_rows (fun c => (distance_km (noise c) <? 2)%py) df |};
     aircraft_section :=
       {| categories := value_counts (column (fun c => category (aircraft c)) df);
          commercial_flights := commercial;
          private_flights := private;
          commercial_percentage := percentage commercial (length df);
          private_percentage := percentage private (length df) |} |}.

(** An empty frame gives the error dictionary; otherwise the frame is
    processed and summarized. *)
Definition analyze_residential_impact `{Geopy} `{MathModule}
  (flight_data : list row) (target_coords : coords)
  : result (string + analysis) :=
  match flight_data with
  | [] => Ok (inl "No flight data available")
  | _ =>
      df <- process_flight_data flight_data target_coords ;;
      Ok (inr (summarize df))
  end.

End ResidentialImpact.

(** ** opensky_fetcher.py *)

Module OpenSkyFetcher.

Local Open Scope string_scope.

(** A numeric position of an OpenSky state vector: a JSON number or
    null. *)
Inductive json_number : Type :=
| JNull
| JNum (q : Q).

(** One state vector of the API response: the columns the analyzer
    reads. *)
Record state_vector : Type := {
  sv_icao24 : string;
  sv_callsign : option string;
  sv_longitude : json_number;
  sv_latitude : json_number;
  sv_baro_altitude : json_number
}.

(** [pd.to_numeric(col, errors='coerce')] on such a cell. *)
Definition to_numeric (c : json_number) : pyfloat :=
  match c with
  | JNull => NaN
  | JNum q => Fin q
  end.

(** [astype(str)] on an object column: [str(None)] is the text None. *)
Definition astype_str (c : option string) : string :=
  match c with
  | None => "None"
  | Some s => s
  end.

Definition _classify_aircraft (icao24 : string) : string :=
  if negb (truthy icao24) then "Unknown"
  else
    let icao24 := upper icao24 in
    if startswith_any icao24 ["4"; "D"; "G"; "F"; "I"; "N"] then "Commercial"
    else if startswith_any icao24 ["A"; "C"] then "Private/General Aviation"
    else "Other".

(** The callsign and numeric conversions of [_clean_flight_data]. *)
Definition convert (sv : state_vector) : row :=
  {| icao24 := sv_icao24 sv;
     callsign := Some (strip (astype_str (sv_callsign sv)));
     latitude := to_numeric (sv_latitude sv);
     longitude := to_numeric (sv_longitude sv);
     baro_altitude := to_numeric (sv_baro_altitude sv) |}.

(** [x != 0] on a float (true of NaN). *)
Definition nonzero (x : pyfloat) : bool := negb (x =? Fin 0)%py.

(** [_clean_flight_data]: the cleaned rows with their [aircraft_type]. *)
Definition _clean_flight_data (df : list state_vector) : list (row * string) :=
  let df := map convert df in
  let df :=
    filter (fun r => negb (isna (longitude r)) && negb (isna (latitude r))) df in
  let df := filter (fun r => nonzero (longitude r) || nonzero (latitude r)) df in
  map (fun r => (r, _classify_aircraft (icao24 r))) df.

End OpenSkyFetcher.

(** ** two_week_flight_collector.py *)

Module TwoWeekFlightCollector.

Local Open Scope string_scope.

Definition peak_interval_minutes : Z := 3.
Definition night_interval_minutes : Z := 10.
Definition house_coords : coords := (Fin 52.395, Fin 4.915).

(** [is_peak_hours], given [datetime.now().hour]. *)
Definition is_peak_hours (current_hour : Z) : bool :=
  ((6 <=? current_hour) && (current_hour <=? 23))%Z.

Definition get_collection_interval (current_hour : Z) : Z :=
  if is_peak_hours current_hour then peak_interval_minutes
  else night_interval_minutes.

(** The time period classification of [collect_enhanced_flight_data]. *)
Definition time_period (hour : Z) : string :=
  if ((5 <=? hour) && (hour <? 9))%Z then "early_morning"
  else if ((9 <=? hour) && (hour <? 12))%Z then "morning"
  else if ((12 <=? hour) && (hour <? 17))%Z then "afternoon"
  else if ((17 <=? hour) && (hour <? 22))%Z then "evening"
  else "night".

(** The local [calc_distance] of [enhance_with_pattern_analysis]. *)
Definition calc_distance `{Geopy} (r : row) : result pyfloat :=
  if isna (latitude r) || isna (longitude r) then Ok infinity
  else geodesic_km (latitude r, longitude r) house_coords.

(** Columns added by [enhance_with_pattern_analysis]. *)
Record pattern_columns : Type := {
  distance_to_house_km : pyfloat;
  is_over_house : bool;
  is_low_altitude : bool;
  noise_cols : noise_columns;
  is_high_noise : bool;
  operation_cols : operation_columns;
  aircraft_category : string
}.

Definition enhance_row `{Geopy} `{MathModule} (r : row) : result pattern_columns :=
  d <- calc_distance r ;;
  n <- SchipholFlightAnalyzer.noise_impact_row house_coords r ;;
  o <- SchipholFlightAnalyzer.schiphol_operations_row r ;;
  Ok {| distance_to_house_km := d;
        is_over_house := (d <=? Fin 1)%py;
        is_low_altitude := (baro_altitude r <? Fin 3000)%py;
        noise_cols := n;
        is_high_noise := (estimated_noise_db n >=? Fin 65)%py;
        operation_cols := o;
        aircraft_category :=
          category (SchipholFlightAnalyzer.classify_aircraft_by_icao
                      (icao24 r) (callsign r)) |}.

Definition enhance_with_pattern_analysis `{Geopy} `{MathModule}
  (flights : list row) : result (list pattern_columns) :=
  apply_rows enhance_row flights.

End TwoWeekFlightCollector.

(** ** corrected_amsterdam_analysis.py

    The altitude section of [analyze_collected_data] and its count of
    confirmed Schiphol operations. *)

Module CorrectedAnalysis.

Local Open Scope string_scope.

Record altitude_distribution : Type := {
  bin_0_1000ft : nat;
  bin_1000_5000ft : nat;
  bin_5000_10000ft : nat;
  bin_10000ft_plus : nat
}.

Definition low_altitude_flights (flights_df : list row) : nat :=
  count_rows (fun r => (baro_altitude r <? Fin 3000)%py) flights_df.

Definition altitude_bins (flights_df : list row) : altitude_distribution :=
  {| bin_0_1000ft :=
       count_rows (fun r => (baro_altitude r <? Fin 1000)%py) flights_df;
     bin_1000_5000ft :=
       count_rows (fun r => (baro_altitude r >=? Fin 1000)%py
                            && (baro_altitude r <? Fin 5000)%py) flights_df;
     bin_5000_10000ft :=
       count_rows (fun r => (baro_altitude r >=? Fin 5000)%py
                            && (baro_altitude r <? Fin 10000)%py) flights_df;
     bin_10000ft_plus :=
       count_rows (fun r => (baro_altitude r >=? Fin 10000)%py) flights_df |}.

Definition confirmed_schiphol_ops (processed_flights : list operation_columns) : nat :=
  count_rows
    (fun o => isin ["Landing/Takeoff"; "Approach/Departure"; "Extended Approach"]
                (schiphol_operation o))
    processed_flights.

End CorrectedAnalysis.

(** ** cache_manager.py: file names and their timestamps *)

Module FlightCache.

Local Open Scope string_scope.

(** [s.split(sep)] for a one-character separator. *)
Fixpoint split (sep : ascii) (s : string) : list string :=
  match s with
  | EmptyString => [EmptyString]
  | String c rest =>
      match split sep rest with
      | [] => [String c EmptyString]
      | part :: parts =>
          if Ascii.eqb c sep then EmptyString :: part :: parts
          else String c part :: parts
      end
  end.

(** [s.rfind(c)]: the index of the last occurrence. *)
Fixpoint rfind (c : ascii) (s : string) : option nat :=
  match s with
  | EmptyString => None
  | String a rest =>
      match rfind c rest with
      | Some i => Some (S i)
      | None => if Ascii.eqb a c then Some 0%nat else None
      end
  end.

(** [Path(name).stem]: the name without its last suffix; a dot in first
    or last position starts no suffix. *)
Definition stem (name : string) : string :=
  match rfind "." name with
  | Some i =>
      if (0 <? i)%nat && (i <? String.length name - 1)%nat
      then substring 0 i name
      else name
  | None => name
  end.

(** [l[-k]] for [k >= 1]; [None] stands for IndexError. *)
Definition from_end {A : Type} (l : list A) (k : nat) : option A :=
  nth_error (rev l) (k - 1).

(** [file.stem.split('_')[-2] + '_' + file.stem.split('_')[-1]], the
    text handed to [strptime]; [None] when the indexing raises
    IndexError (the file is then skipped). *)
Definition timestamp_str (file_stem : string) : option string :=
  let parts := split "_" file_stem in
  match from_end parts 2, from_end parts 1 with
  | Some day, Some time => Some (day ++ "_" ++ time)
  | _, _ => None
  end.

(** The name [save_opensky_data] gives a file:
    [f"opensky_{data_type}_{timestamp}.parquet"]. *)
Definition filename (data_type timestamp : string) : string :=
  "opensky_" ++ data_type ++ "_" ++ timestamp ++ ".parquet".

End FlightCache.

(** * Properties *)

Import SchipholFlightAnalyzer.

(** [lra] does not look through a division: rewrite every division by a
    literal as a product with its inverse first. *)
Ltac qdiv :=
  unfold Qdiv in *;
  repeat match goal with
    | |- context [ / (?n # ?d) ] =>
        let v := eval vm_compute in (/ (n # d)) in
        change (/ (n # d)) with v
    | H : context [ / (?n # ?d) ] |- _ =>
        let v := eval vm_compute in (/ (n # d)) in
        change (/ (n # d)) with v in H
    end.

Ltac qlra := qdiv; lra.

(** ** Comparisons and arithmetic on finite floats *)

Section FiniteFloats.

Variables a b : Q.

Lemma ltb_fin : (Fin a <? Fin b)%py = true <-> a < b.
Proof.
  unfold ltb, compare. rewrite Qlt_alt.
  destruct (a ?= b); split; congruence.
Qed.

Lemma gtb_fin : (Fin a >? Fin b)%py = true <-> b < a.
Proof.
  unfold gtb, compare. rewrite Qgt_alt.
  destruct (a ?= b); split; congruence.
Qed.

Lemma leb_fin : (Fin a <=? Fin b)%py = true <-> a <= b.
Proof.
  unfold leb, compare. rewrite Qle_alt.
  destruct (a ?= b); split; congruence.
Qed.

Lemma geb_fin : (Fin a >=? Fin b)%py = true <-> b <= a.
Proof.
  unfold geb, compare. rewrite Qge_alt.
  destruct (a ?= b); split; congruence.
Qed.

Lemma ltb_fin_false : (Fin a <? Fin b)%py = false <-> b <= a.
Proof.
  rewrite <- not_true_iff_false, ltb_fin. split; intros; lra.
Qed.

Lemma geb_fin_false : (Fin a >=? Fin b)%py = false <-> a < b.
Proof.
  rewrite <- not_true_iff_false, geb_fin. split; intros; lra.
Qed.

Lemma leb_fin_false : (Fin a <=? Fin b)%py = false <-> b < a.
Proof.
  rewrite <- not_true_iff_false, leb_fin. split; intros; lra.
Qed.

Lemma pymax_fin : pymax (Fin a) (Fin b) = Fin (Qmax a b).
Proof.
  unfold pymax, gtb, compare, Qmax, GenericMinMax.gmax.
  rewrite <- (Qcompare_antisym a b).
  destruct (a ?= b); reflexivity.
Qed.

Lemma pymin_fin : pymin (Fin a) (Fin b) = Fin (Qmin a b).
Proof.
  unfold pymin, ltb, compare, Qmin, GenericMinMax.gmin.
  rewrite <- (Qcompare_antisym a b).
  destruct (a ?= b); reflexivity.
Qed.

Lemma div_fin : ~ b == 0 -> (Fin a / Fin b)%py = Fin (a / b).
Proof.
  intros Hb. unfold div.
  destruct (Qeq_bool b 0) eqn:E; [|reflexivity].
  apply Qeq_bool_eq in E. contradiction.
Qed.

End FiniteFloats.

(** A NaN compares false against everything. *)
Lemma nan_ltb (y : pyfloat) : (NaN <? y)%py = false.
Proof. reflexivity. Qed.

Lemma nan_geb (y : pyfloat) : (NaN >=? y)%py = false.
Proof. reflexivity. Qed.

Lemma same_refl (x : pyfloat) : x ~= x.
Proof. destruct x; simpl; auto. reflexivity. Qed.

(** ** Rounding *)

Section Rounding.

Lemma round_half_even_cases (t : Q) :
  let f := Qfloor t in
  (round_half_even t = f /\ t - inject_Z f <= 1 # 2)
  \/ (round_half_even t = (f + 1)%Z /\ 1 # 2 <= t - inject_Z f).
Proof.
  unfold round_half_even. cbv zeta.
  destruct (Qcompare_spec (t - inject_Z (Qfloor t)) (1 # 2)) as [E|L|G].
  - destruct (Z.even (Qfloor t)); [left | right]; split; auto; lra.
  - left; split; auto; lra.
  - right; split; auto; lra.
Qed.

Lemma round_half_even_integer (z : Z) : round_half_even (inject_Z z) = z.
Proof.
  unfold round_half_even. rewrite Qfloor_Z.
  destruct (Qcompare_spec (inject_Z z - inject_Z z) (1 # 2)) as [E|L|G];
    [lra | reflexivity | lra].
Qed.

Lemma round_half_even_mono (s t : Q) :
  s <= t -> (round_half_even s <= round_half_even t)%Z.
Proof.
  intros Hst.
  pose proof (Qfloor_resp_le _ _ Hst) as Hf.
  destruct (Z.eq_dec (Qfloor s) (Qfloor t)) as [E|N].
  - unfold round_half_even. rewrite E.
    destruct (Qcompare_spec (s - inject_Z (Qfloor t)) (1 # 2)) as [E1|L1|G1];
      destruct (Qcompare_spec (t - inject_Z (Qfloor t)) (1 # 2)) as [E2|L2|G2];
      try destruct (Z.even (Qfloor t)); try lia; lra.
  - pose proof (round_half_even_cases s) as Hs.
    pose proof (round_half_even_cases t) as Ht.
    cbv zeta in Hs, Ht. lia.
Qed.

Lemma round_half_even_lower (z : Z) (t : Q) :
  inject_Z z <= t -> (z <= round_half_even t)%Z.
Proof.
  intros H. rewrite <- (round_half_even_integer z).
  now apply round_half_even_mono.
Qed.

Lemma round_half_even_upper (z : Z) (t : Q) :
  t <= inject_Z z -> (round_half_even t <= z)%Z.
Proof.
  intros H. rewrite <- (round_half_even_integer z).
  now apply round_half_even_mono.
Qed.

Lemma pyround_1 (q : Q) : pyround (Fin q) 1 = Fin (NoiseSpec.round1 q).
Proof. reflexivity. Qed.

Lemma round1_mono (p q : Q) :
  p <= q -> NoiseSpec.round1 p <= NoiseSpec.round1 q.
Proof.
  intros H. unfold NoiseSpec.round1.
  assert (Hz : (round_half_even (p * 10) <= round_half_even (q * 10))%Z)
    by (apply round_half_even_mono; lra).
  rewrite Zle_Qle in Hz. qlra.
Qed.

Lemma round1_lower (z : Z) (q : Q) :
  inject_Z z / 10 <= q -> inject_Z z / 10 <= NoiseSpec.round1 q.
Proof.
  intros H. unfold NoiseSpec.round1.
  assert (Hz : (z <= round_half_even (q * 10))%Z)
    by (apply round_half_even_lower; qlra).
  rewrite Zle_Qle in Hz. qlra.
Qed.

Lemma round1_upper (z : Z) (q : Q) :
  q <= inject_Z z / 10 -> NoiseSpec.round1 q <= inject_Z z / 10.
Proof.
  intros H. unfold NoiseSpec.round1.
  assert (Hz : (round_half_even (q * 10) <= z)%Z)
    by (apply round_half_even_upper; qlra).
  rewrite Zle_Qle in Hz. qlra.
Qed.

End Rounding.

(** ** The noise estimate *)

Section NoiseEstimate.

Import NoiseSpec.

Lemma round_half_even_comp (p q : Q) :
  p == q -> round_half_even p = round_half_even q.
Proof.
  intros E. unfold round_half_even.
  rewrite (Qfloor_comp _ _ E).
  assert (E' : p - inject_Z (Qfloor q) == q - inject_Z (Qfloor q))
    by (rewrite E; reflexivity).
  rewrite (Qcompare_comp _ _ E' _ _ (Qeq_refl (1 # 2))).
  reflexivity.
Qed.

Lemma round1_comp (p q : Q) : p == q -> round1 p = round1 q.
Proof.
  intros E. unfold round1.
  rewrite (round_half_even_comp (p * 10) (q * 10)); [reflexivity|].
  rewrite E; reflexivity.
Qed.

(** The unrounded value the code computes on finite inputs. *)
Lemma estimate_noise_fin (a d : Q) :
  estimate_noise (Fin a) (Fin d) =
  Fin (round1 (Qmax (80 - Qmin (Qmax a 100 / 1000 * 5) 40
                        - Qmin (Qmax d 0.1 * 2) 20) 30)).
Proof.
  unfold estimate_noise. cbv zeta.
  change (isna (Fin a) || (Fin d =? infinity)%py) with false. cbv iota.
  rewrite !pymax_fin.
  rewrite div_fin by (intros E; discriminate E).
  change (Fin (Qmax a 100 / 1000) * Fin 5)%py
    with (Fin (Qmax a 100 / 1000 * 5)).
  change (Fin (Qmax d 0.1) * Fin 2)%py with (Fin (Qmax d 0.1 * 2)).
  rewrite !pymin_fin.
  change (Fin 80 - Fin ?x - Fin ?y)%py with (Fin (80 - x - y)).
  rewrite pymax_fin. apply pyround_1.
Qed.

Lemma estimate_noise_clamped (a d : Q) :
  estimate_noise (Fin a) (Fin d) =
  Fin (round1 (noise_db defaults (Qmax a 100) (Qmax d 0.1))).
Proof.
  rewrite estimate_noise_fin. f_equal. apply round1_comp.
  unfold noise_db, defaults; simpl. apply Q.max_comm.
Qed.

Lemma noise_db_bounds (a d : Q) :
  30 <= noise_db defaults (Qmax a 100) (Qmax d 0.1) <= 79.3.
Proof.
  unfold noise_db, defaults; simpl.
  destruct (Q.max_spec a 100) as [[? Ea]|[? Ea]];
  destruct (Q.max_spec d 0.1) as [[? Ed]|[? Ed]];
  rewrite Ea, Ed;
  match goal with |- context [Qmin (?x / 1000 * 5) 40] =>
    destruct (Q.min_spec (x / 1000 * 5) 40) as [[? Em]|[? Em]] end;
  match goal with |- context [Qmin (?y * 2) 20] =>
    destruct (Q.min_spec (y * 2) 20) as [[? En]|[? En]] end;
  rewrite Em, En;
  match goal with |- context [Qmax 30 ?z] =>
    destruct (Q.max_spec 30 z) as [[? Ez]|[? Ez]] end;
  rewrite Ez; qlra.
Qed.

Lemma noise_db_antitone (a1 a2 d1 d2 : Q) :
  a1 <= a2 -> d1 <= d2 ->
  noise_db defaults (Qmax a2 100) (Qmax d2 0.1)
  <= noise_db defaults (Qmax a1 100) (Qmax d1 0.1).
Proof.
  intros Ha Hd. unfold noise_db, defaults; simpl.
  apply Q.max_le_compat_l.
  assert (H1 : Qmin (Qmax a1 100 / 1000 * 5) 40
               <= Qmin (Qmax a2 100 / 1000 * 5) 40).
  { apply Q.min_le_compat_r.
    pose proof (Q.max_le_compat_r a1 a2 100 Ha). qlra. }
  assert (H2 : Qmin (Qmax d1 0.1 * 2) 20 <= Qmin (Qmax d2 0.1 * 2) 20).
  { apply Q.min_le_compat_r.
    pose proof (Q.max_le_compat_r d1 d2 0.1 Hd). lra. }
  lra.
Qed.

End NoiseEstimate.

(** ** The noise estimate in binary64 arithmetic *)

Ltac float_error_value :=
  unfold float_error in *;
  change (1 # 2 ^ 46) with (1 # 70368744177664) in *.

Section Binary64Noise.

Context {F : Float64}.

(** One rounding of a number between 1/16 and 128 moves it by at most
    [float_error]. *)
Lemma fl_near (x : Q) :
  1 # 16 <= x -> x <= 128 -> x - float_error <= fl x /\ fl x <= x + float_error.
Proof.
  intros Hlo Hhi.
  assert (P : 0 <= x) by lra.
  pose proof (fl_error x) as E.
  rewrite (Qabs_pos x P) in E.
  assert (E' : Qabs (fl x - x) <= unit_roundoff * x).
  { apply E.
    - apply Qle_trans with (1 # 16); [|exact Hlo]. vm_compute. discriminate.
    - apply Qle_trans with 128; [exact Hhi|]. vm_compute. discriminate. }
  apply Qabs_Qle_condition in E'. destruct E' as [E1 E2].
  unfold unit_roundoff in *.
  change (1 # 2 ^ 53) with (1 # 9007199254740992) in *.
  float_error_value.
  split; lra.
Qed.

Lemma fl_keeps (z : Z) : (Z.abs z <= 1000)%Z -> fl (inject_Z z) == inject_Z z.
Proof.
  intros H. apply fl_integer.
  apply Z.le_trans with 1000%Z; [exact H|]. vm_compute. discriminate.
Qed.

(** [min] and [max] with a constant do not enlarge a distance. *)
Lemma Qmin_near (x y c e : Q) :
  y - e <= x -> x <= y + e ->
  Qmin y c - e <= Qmin x c /\ Qmin x c <= Qmin y c + e.
Proof.
  intros L U.
  destruct (Q.min_spec x c) as [[? Ex]|[? Ex]];
  destruct (Q.min_spec y c) as [[? Ey]|[? Ey]];
  rewrite Ex, Ey; split; lra.
Qed.

Lemma Qmax_near (x y c e : Q) :
  y - e <= x -> x <= y + e ->
  Qmax y c - e <= Qmax x c /\ Qmax x c <= Qmax y c + e.
Proof.
  intros L U.
  destruct (Q.max_spec x c) as [[? Ex]|[? Ex]];
  destruct (Q.max_spec y c) as [[? Ey]|[? Ey]];
  rewrite Ex, Ey; split; lra.
Qed.

Lemma Qmax_near_r (x c c' e : Q) :
  c' - e <= c -> c <= c' + e ->
  Qmax x c' - e <= Qmax x c /\ Qmax x c <= Qmax x c' + e.
Proof.
  intros L U.
  destruct (Q.max_spec x c) as [[? Ex]|[? Ex]];
  destruct (Q.max_spec x c') as [[? Ey]|[? Ey]];
  rewrite Ex, Ey; split; lra.
Qed.

(** The altitude term [min(altitude_ft / 1000 * 5, 40)] for an altitude
    of at least 100 ft: two roundings below the cap, none at the cap. *)
Lemma altitude_reduction_near (A : Q) :
  100 <= A ->
  let computed := Qmin (fl (fl (A / 1000) * 5)) 40 in
  let exact := Qmin (A / 1000 * 5) 40 in
  exact - 6 * float_error <= computed /\ computed <= exact + 6 * float_error
  /\ 4 # 10 <= computed /\ computed <= 40.
Proof.
  intros HA computed exact.
  assert (Htop : computed <= 40) by apply Q.le_min_r.
  destruct (Qlt_le_dec 8000 A) as [Big | Small].
  - assert (H8 : 8 <= fl (A / 1000)).
    { rewrite <- (fl_keeps 8) by (vm_compute; discriminate).
      apply fl_monotone. change (inject_Z 8) with 8. qlra. }
    assert (H40 : 40 <= fl (fl (A / 1000) * 5)).
    { rewrite <- (fl_keeps 40) by (vm_compute; discriminate).
      apply fl_monotone. change (inject_Z 40) with 40. lra. }
    assert (Ec : computed == 40) by (apply Q.min_r; exact H40).
    assert (Ee : exact == 40) by (apply Q.min_r; qlra).
    rewrite Ec, Ee. float_error_value. repeat split; lra.
  - destruct (fl_near (A / 1000)) as [L1 U1]; [qlra | qlra |].
    destruct (fl_near (fl (A / 1000) * 5)) as [L2 U2];
      [float_error_value; qlra | float_error_value; qlra |].
    assert (N : A / 1000 * 5 - 6 * float_error <= fl (fl (A / 1000) * 5)
                /\ fl (fl (A / 1000) * 5) <= A / 1000 * 5 + 6 * float_error)
      by (float_error_value; split; lra).
    destruct N as [NL NU].
    destruct (Qmin_near _ _ 40 _ NL NU) as [ML MU].
    fold computed in ML, MU. fold exact in ML, MU.
    split; [exact ML | split; [exact MU | split; [|exact Htop]]].
    unfold computed.
    apply Q.min_glb; [|discriminate].
    float_error_value. qlra.
Qed.

(** The distance term [min(distance_km * 2, 20)] for a distance clamped
    to the float nearest 0.1. *)
Lemma distance_reduction_near (d : Q) :
  let computed := Qmin (fl (Qmax d (fl 0.1) * 2)) 20 in
  let exact := Qmin (Qmax d 0.1 * 2) 20 in
  exact - 3 * float_error <= computed /\ computed <= exact + 3 * float_error
  /\ 19 # 100 <= computed /\ computed <= 20.
Proof.
  intros computed exact.
  assert (Htop : computed <= 20) by apply Q.le_min_r.
  destruct (fl_near 0.1) as [Lc Uc]; [lra | lra |].
  destruct (Qmax_near_r d (fl 0.1) 0.1 float_error) as [LD UD]; [lra | lra |].
  assert (HD : fl 0.1 <= Qmax d (fl 0.1)) by apply Q.le_max_r.
  assert (HD0 : 0.1 <= Qmax d 0.1) by apply Q.le_max_r.
  set (D := Qmax d (fl 0.1)) in *. set (D0 := Qmax d 0.1) in *.
  destruct (Qlt_le_dec 10.5 D) as [Big | Small].
  - assert (H21 : 21 <= fl (D * 2)).
    { rewrite <- (fl_keeps 21) by (vm_compute; discriminate).
      apply fl_monotone. change (inject_Z 21) with 21. lra. }
    assert (Ec : computed == 20) by (apply Q.min_r; lra).
    assert (Ee : exact == 20)
      by (apply Q.min_r; float_error_value; lra).
    rewrite Ec, Ee. float_error_value. repeat split; lra.
  - destruct (fl_near (D * 2)) as [L2 U2];
      [float_error_value; lra | lra |].
    assert (N : D0 * 2 - 3 * float_error <= fl (D * 2)
                /\ fl (D * 2) <= D0 * 2 + 3 * float_error)
      by (float_error_value; split; lra).
    destruct N as [NL NU].
    destruct (Qmin_near _ _ 20 _ NL NU) as [ML MU].
    fold computed in ML, MU. fold exact in ML, MU.
    split; [exact ML | split; [exact MU | split; [|exact Htop]]].
    unfold computed.
    apply Q.min_glb; [|discriminate].
    float_error_value. lra.
Qed.

(** Five roundings and the rounded literal 0.1 move the value before
    [round] by at most eleven times [float_error] from the formula of
    the specification on the clamped inputs. *)
Lemma unrounded_near (a d : Q) :
  let exact := NoiseSpec.noise_db NoiseSpec.defaults (Qmax a 100) (Qmax d 0.1) in
  exact - 11 * float_error <= Binary64.unrounded a d
  /\ Binary64.unrounded a d <= exact + 11 * float_error
  /\ 30 <= Binary64.unrounded a d.
Proof.
  intros exact.
  destruct (altitude_reduction_near (Qmax a 100) (Q.le_max_r a 100))
    as (LA & UA & A0 & A1).
  destruct (distance_reduction_near d) as (LD & UD & D0 & D1).
  unfold Binary64.unrounded.
  set (ar := Qmin (fl (fl (Qmax a 100 / 1000) * 5)) 40) in *.
  set (dr := Qmin (fl (Qmax d (fl 0.1) * 2)) 20) in *.
  destruct (fl_near (80 - ar)) as [L1 U1]; [lra | lra |].
  destruct (fl_near (fl (80 - ar) - dr)) as [L2 U2];
    [float_error_value; lra | float_error_value; lra |].
  split; [|split; [|apply Q.le_max_r]].
  - unfold exact, NoiseSpec.noise_db, NoiseSpec.defaults; simpl.
    rewrite (Q.max_comm 30).
    apply (Qmax_near _ _ 30 (11 * float_error)); float_error_value; lra.
  - unfold exact, NoiseSpec.noise_db, NoiseSpec.defaults; simpl.
    rewrite (Q.max_comm 30).
    apply (Qmax_near _ _ 30 (11 * float_error)); float_error_value; lra.
Qed.

Lemma estimate_noise_unrounded (a d : Q) :
  Binary64.estimate_noise (Fin a) (Fin d)
  = Fin (NoiseSpec.round1 (Binary64.unrounded a d)).
Proof.
  unfold Binary64.estimate_noise, Binary64.unrounded. cbv zeta.
  change (isna (Fin a) || (Fin d =? infinity)%py) with false. cbv iota.
  cbn [Binary64.rnd].
  rewrite !pymax_fin.
  rewrite div_fin by (intros E; discriminate E).
  cbn [Binary64.rnd].
  change (Fin ?x * Fin ?y)%py with (Fin (x * y)).
  cbn [Binary64.rnd].
  rewrite !pymin_fin.
  change (Fin 80 - Fin ?x)%py with (Fin (80 - x)).
  cbn [Binary64.rnd].
  change (Fin ?x - Fin ?y)%py with (Fin (x - y)).
  cbn [Binary64.rnd].
  rewrite pymax_fin. apply pyround_1.
Qed.

End Binary64Noise.

(** With exact arithmetic the binary64 estimate is the estimate of the
    main embedding. *)
Lemma estimate_noise_exact_arithmetic (altitude distance : pyfloat) :
  @Binary64.estimate_noise exact_arithmetic altitude distance
  = estimate_noise altitude distance.
Proof.
  assert (R : forall x, @Binary64.rnd exact_arithmetic x = x)
    by (intros [q| | |]; reflexivity).
  unfold Binary64.estimate_noise, estimate_noise. cbv zeta.
  rewrite !R. reflexivity.
Qed.

Section Tenths.

Lemma round_half_even_near (t : Q) :
  t - (1 # 2) <= inject_Z (round_half_even t)
  /\ inject_Z (round_half_even t) <= t + (1 # 2).
Proof.
  pose proof (Qfloor_le t) as Lo. pose proof (Qlt_floor t) as Hi.
  rewrite inject_Z_plus in Hi. change (inject_Z 1) with 1 in Hi.
  destruct (round_half_even_cases t) as [[E H] | [E H]]; rewrite E.
  - split; lra.
  - rewrite inject_Z_plus. change (inject_Z 1) with 1. split; lra.
Qed.

Lemma round_half_even_unique (z : Z) (t : Q) :
  inject_Z z - (1 # 2) < t -> t < inject_Z z + (1 # 2) ->
  round_half_even t = z.
Proof.
  intros L U.
  destruct (round_half_even_near t) as [N1 N2].
  assert (A : inject_Z (z + -1) < inject_Z (round_half_even t))
    by (rewrite inject_Z_plus; change (inject_Z (-1)) with (-1); lra).
  assert (B : inject_Z (round_half_even t) < inject_Z (z + 1))
    by (rewrite inject_Z_plus; change (inject_Z 1) with 1; lra).
  rewrite <- Zlt_Qlt in A, B. lia.
Qed.

Lemma round1_near (q : Q) :
  q - (1 # 20) <= NoiseSpec.round1 q /\ NoiseSpec.round1 q <= q + (1 # 20).
Proof.
  unfold NoiseSpec.round1.
  destruct (round_half_even_near (q * 10)) as [L U].
  split; qlra.
Qed.

Lemma round1_unique (z : Z) (q : Q) :
  inject_Z z / 10 - (1 # 20) < q -> q < inject_Z z / 10 + (1 # 20) ->
  NoiseSpec.round1 q = inject_Z z / 10.
Proof.
  intros L U. unfold NoiseSpec.round1.
  rewrite (round_half_even_unique z); [reflexivity | qlra | qlra].
Qed.

End Tenths.

(** ** Binary64 rounding has the laws of round-to-nearest *)

Import IEEE754.

Section PowersOfTwo.

Lemma pow2_pos (e : Z) : 0 < pow2 e.
Proof. apply Qpower_0_lt. reflexivity. Qed.

Lemma pow2_add (a b : Z) : pow2 (a + b) == pow2 a * pow2 b.
Proof. apply Qpower_plus. discriminate. Qed.

Lemma pow2_le (a b : Z) : (a <= b)%Z -> pow2 a <= pow2 b.
Proof. intros H. apply Qpower_le_compat_l; [exact H | discriminate]. Qed.

Lemma pow2_lt (a b : Z) : (a < b)%Z -> pow2 a < pow2 b.
Proof. intros H. apply Qpower_lt_compat_l; [exact H | reflexivity]. Qed.

Lemma pow2_lt_inv (a b : Z) : pow2 a < pow2 b -> (a < b)%Z.
Proof. intros H. apply (Qpower_lt_compat_l_inv 2); [exact H | reflexivity]. Qed.

Lemma pow2_Z (k : Z) : (0 <= k)%Z -> pow2 k == inject_Z (2 ^ k).
Proof. intros H. unfold pow2. rewrite Zpower_Qpower by exact H. reflexivity. Qed.

Lemma pow2_opp (k : Z) : pow2 (- k) == / pow2 k.
Proof. apply Qpower_opp. Qed.

End PowersOfTwo.

Section FloorLog2.

Lemma floor_log2_spec (x : Q) :
  0 < x -> pow2 (floor_log2 x) <= x /\ x < pow2 (floor_log2 x + 1).
Proof.
  intros Hx. unfold floor_log2.
  destruct (Qle_bool 1 x) eqn:E.
  - apply Qle_bool_iff in E.
    assert (Hn : (1 <= Qfloor x)%Z).
    { change 1%Z with (Qfloor 1). apply Qfloor_resp_le. exact E. }
    destruct (Z.log2_spec (Qfloor x)) as [L U]; [lia|].
    pose proof (Z.log2_nonneg (Qfloor x)) as P.
    split.
    + rewrite pow2_Z by exact P.
      apply Qle_trans with (inject_Z (Qfloor x)); [|apply Qfloor_le].
      rewrite <- Zle_Qle. exact L.
    + rewrite pow2_Z by lia.
      apply Qlt_le_trans with (inject_Z (Qfloor x + 1)); [apply Qlt_floor|].
      rewrite <- Zle_Qle. unfold Z.succ in U. lia.
  - assert (X1 : x < 1).
    { apply Qnot_le_lt. intros C. apply Qle_bool_iff in C. congruence. }
    assert (T : x * / x == 1) by (apply Qmult_inv_r; lra).
    assert (Tpos : 0 < / x) by (apply Qinv_lt_0_compat; exact Hx).
    pose proof (Qle_ceiling (/ x)) as C1.
    pose proof (Qceiling_lt (/ x)) as C2.
    set (c := Qceiling (/ x)) in *.
    set (t := / x) in *. clearbody c t.
    assert (T1 : 1 < t).
    { apply Qnot_le_lt. intros C.
      assert (x * t <= x * 1) by (apply Qmult_le_l; assumption).
      lra. }
    assert (Hc : (1 < c)%Z).
    { rewrite Zlt_Qlt. change (inject_Z 1) with 1. lra. }
    destruct (Z.log2_up_spec c Hc) as [L U].
    pose proof (Z.log2_up_pos c Hc) as P.
    set (m := Z.log2_up c) in *.
    split.
    + rewrite pow2_opp, pow2_Z by lia.
      assert (M : t <= inject_Z (2 ^ m)).
      { apply Qle_trans with (inject_Z c); [exact C1|].
        rewrite <- Zle_Qle. exact U. }
      apply Qle_shift_inv_r; [lra|].
      assert (x * t <= x * inject_Z (2 ^ m)) by (apply Qmult_le_l; assumption).
      lra.
    + replace (- m + 1)%Z with (- (m - 1))%Z by lia.
      rewrite pow2_opp, pow2_Z by lia.
      assert (M : inject_Z (2 ^ (m - 1)) < t).
      { apply Qle_lt_trans with (inject_Z (c - 1)); [|exact C2].
        rewrite <- Zle_Qle.
        replace (Z.pred m) with (m - 1)%Z in L by (unfold Z.pred; lia). lia. }
      assert (P2 : 0 < inject_Z (2 ^ (m - 1))).
      { rewrite <- pow2_Z by lia. apply pow2_pos. }
      apply Qlt_shift_inv_l; [exact P2|].
      assert (x * inject_Z (2 ^ (m - 1)) < x * t) by (apply Qmult_lt_l; assumption).
      lra.
Qed.

Lemma floor_log2_mono (x y : Q) :
  0 < x -> x <= y -> (floor_log2 x <= floor_log2 y)%Z.
Proof.
  intros Hx Hxy.
  destruct (floor_log2_spec x Hx) as [Lx _].
  destruct (floor_log2_spec y) as [_ Uy]; [lra|].
  assert (H : pow2 (floor_log2 x) < pow2 (floor_log2 y + 1)) by lra.
  apply pow2_lt_inv in H. lia.
Qed.

Lemma floor_log2_lower (x : Q) (l : Z) :
  pow2 l <= x -> (l <= floor_log2 x)%Z.
Proof.
  intros H.
  assert (Hx : 0 < x) by (pose proof (pow2_pos l); lra).
  destruct (floor_log2_spec x Hx) as [_ U].
  assert (H' : pow2 l < pow2 (floor_log2 x + 1)) by lra.
  apply pow2_lt_inv in H'. lia.
Qed.

Lemma floor_log2_upper (x : Q) (l : Z) :
  0 < x -> x < pow2 (l + 1) -> (floor_log2 x <= l)%Z.
Proof.
  intros Hx H.
  destruct (floor_log2_spec x Hx) as [L _].
  assert (H' : pow2 (floor_log2 x) < pow2 (l + 1)) by lra.
  apply pow2_lt_inv in H'. lia.
Qed.

End FloorLog2.

Section RoundPositive.

Lemma ulp_exponent_mono (x y : Q) :
  0 < x -> x <= y -> (ulp_exponent x <= ulp_exponent y)%Z.
Proof.
  intros Hx Hxy. unfold ulp_exponent.
  pose proof (floor_log2_mono x y Hx Hxy). lia.
Qed.

(** The scaled number is below [2^53]. *)
Lemma scaled_upper (x : Q) :
  0 < x -> x / pow2 (ulp_exponent x) < inject_Z (2 ^ 53).
Proof.
  intros Hx.
  destruct (floor_log2_spec x Hx) as [_ U].
  set (l := floor_log2 x) in *.
  assert (E : (l - 52 <= ulp_exponent x)%Z) by (unfold ulp_exponent; fold l; lia).
  apply pow2_le in E.
  replace (l + 1)%Z with ((l - 52) + 53)%Z in U by lia.
  rewrite pow2_add in U.
  rewrite (pow2_Z 53) in U by lia.
  pose proof (pow2_pos (ulp_exponent x)) as P.
  pose proof (pow2_pos (l - 52)) as P'.
  apply Qlt_shift_div_r; [exact P|].
  assert (K : pow2 (l - 52) * inject_Z (2 ^ 53)
              <= pow2 (ulp_exponent x) * inject_Z (2 ^ 53)).
  { apply Qmult_le_compat_r; [exact E | discriminate]. }
  rewrite (Qmult_comm (inject_Z (2 ^ 53))). lra.
Qed.

(** In the normal range the scaled number is at least [2^52]. *)
Lemma scaled_lower (x : Q) :
  0 < x -> ulp_exponent x = (floor_log2 x - 52)%Z ->
  inject_Z (2 ^ 52) <= x / pow2 (ulp_exponent x).
Proof.
  intros Hx E. rewrite E.
  destruct (floor_log2_spec x Hx) as [L _].
  set (l := floor_log2 x) in *.
  replace l with ((l - 52) + 52)%Z in L at 1 by lia.
  rewrite pow2_add in L. rewrite (pow2_Z 52) in L by lia.
  apply Qle_shift_div_l; [apply pow2_pos|].
  rewrite (Qmult_comm (inject_Z (2 ^ 52))). exact L.
Qed.

Lemma round_positive_nonneg (x : Q) : 0 < x -> 0 <= round_positive x.
Proof.
  intros Hx. unfold round_positive. cbv zeta.
  pose proof (pow2_pos (ulp_exponent x)) as P.
  apply Qmult_le_0_compat; [|lra].
  change 0 with (inject_Z 0). rewrite <- Zle_Qle.
  apply round_half_even_lower. change (inject_Z 0) with 0.
  apply Qle_shift_div_l; [exact P | lra].
Qed.

Lemma round_positive_mono (x y : Q) :
  0 < x -> x <= y -> round_positive x <= round_positive y.
Proof.
  intros Hx Hxy.
  assert (Hy : 0 < y) by lra.
  pose proof (ulp_exponent_mono x y Hx Hxy) as He.
  unfold round_positive. cbv zeta.
  set (ex := ulp_exponent x) in *. set (ey := ulp_exponent y) in *.
  pose proof (pow2_pos ex) as Px. pose proof (pow2_pos ey) as Py.
  destruct (Z.eq_dec ex ey) as [Eq | Ne].
  - rewrite <- Eq.
    apply Qmult_le_compat_r; [|lra].
    rewrite <- Zle_Qle. apply round_half_even_mono.
    apply Qmult_le_compat_r; [exact Hxy|].
    apply Qlt_le_weak, Qinv_lt_0_compat. exact Px.
  - assert (Lt : (ex + 1 <= ey)%Z) by lia.
    assert (Ny : ey = (floor_log2 y - 52)%Z).
    { unfold ey, ulp_exponent in *. unfold ex, ulp_exponent in Lt. lia. }
    (* below the next binade on the left, above the binade on the right *)
    assert (A : inject_Z (round_half_even (x / pow2 ex)) <= inject_Z (2 ^ 53)).
    { rewrite <- Zle_Qle. apply round_half_even_upper.
      apply Qlt_le_weak. apply scaled_upper. exact Hx. }
    assert (B : inject_Z (2 ^ 52) <= inject_Z (round_half_even (y / pow2 ey))).
    { rewrite <- Zle_Qle. apply round_half_even_lower.
      apply scaled_lower; [exact Hy | exact Ny]. }
    apply Qle_trans with (inject_Z (2 ^ 53) * pow2 ex).
    { apply Qmult_le_compat_r; [exact A | lra]. }
    apply Qle_trans with (inject_Z (2 ^ 52) * pow2 ey).
    2:{ apply Qmult_le_compat_r; [exact B | lra]. }
    apply pow2_le in Lt. rewrite pow2_add in Lt.
    change (pow2 1) with 2 in Lt.
    change (inject_Z (2 ^ 53)) with (inject_Z (2 ^ 52) * 2).
    assert (K : inject_Z (2 ^ 52) * (pow2 ex * 2) <= inject_Z (2 ^ 52) * pow2 ey).
    { apply Qmult_le_l; [reflexivity | exact Lt]. }
    lra.
Qed.

(** The rounding error is at most half a unit in the last place. *)
Lemma round_positive_error (x : Q) :
  x - pow2 (ulp_exponent x) / 2 <= round_positive x
  /\ round_positive x <= x + pow2 (ulp_exponent x) / 2.
Proof.
  unfold round_positive. cbv zeta.
  set (e := ulp_exponent x).
  pose proof (pow2_pos e) as P.
  destruct (round_half_even_near (x / pow2 e)) as [L U].
  assert (X : x / pow2 e * pow2 e == x) by (field; lra).
  set (q := x / pow2 e) in *. set (k := inject_Z (round_half_even q)) in *.
  assert (L' : (q - (1 # 2)) * pow2 e <= k * pow2 e)
    by (apply Qmult_le_compat_r; lra).
  assert (U' : k * pow2 e <= (q + (1 # 2)) * pow2 e)
    by (apply Qmult_le_compat_r; lra).
  set (p := pow2 e) in *. clearbody k q p.
  split.
  - apply Qle_trans with ((q - (1 # 2)) * p); [|exact L'].
    assert (E : (q - (1 # 2)) * p == q * p - p / 2) by field.
    rewrite E, X. apply Qle_refl.
  - apply Qle_trans with ((q + (1 # 2)) * p); [exact U'|].
    assert (E : (q + (1 # 2)) * p == q * p + p / 2) by field.
    rewrite E, X. apply Qle_refl.
Qed.

End RoundPositive.

Section RoundNearestEven.

Lemma round_nearest_even_cases (x : Q) :
  (0 < x /\ round_nearest_even x = round_positive x)
  \/ (x == 0 /\ round_nearest_even x = 0)
  \/ (x < 0 /\ round_nearest_even x = - round_positive (- x)).
Proof.
  unfold round_nearest_even.
  destruct (Qcompare x 0) eqn:C.
  - right; left. split; [apply Qeq_alt; exact C | reflexivity].
  - right; right. split; [apply Qlt_alt; exact C | reflexivity].
  - left. split; [apply Qgt_alt in C; exact C | reflexivity].
Qed.

Lemma round_nearest_even_mono (x y : Q) :
  x <= y -> round_nearest_even x <= round_nearest_even y.
Proof.
  intros Hxy.
  destruct (round_nearest_even_cases x) as [[Hx ->] | [[Hx ->] | [Hx ->]]];
  destruct (round_nearest_even_cases y) as [[Hy ->] | [[Hy ->] | [Hy ->]]];
    try lra.
  - apply round_positive_mono; assumption.
  - apply round_positive_nonneg. exact Hy.
  - pose proof (round_positive_nonneg (- x)). pose proof (round_positive_nonneg y).
    lra.
  - pose proof (round_positive_nonneg (- x)). lra.
  - assert (H : round_positive (- y) <= round_positive (- x))
      by (apply round_positive_mono; lra).
    lra.
Qed.

Lemma round_nearest_even_compat (x y : Q) :
  x == y -> round_nearest_even x == round_nearest_even y.
Proof.
  intros E. apply Qle_antisym; apply round_nearest_even_mono; rewrite E;
    apply Qle_refl.
Qed.

Lemma round_positive_integer (z : Z) :
  (0 < z <= 2 ^ 53)%Z -> round_positive (inject_Z z) == inject_Z z.
Proof.
  intros [Hz Hb].
  assert (Hq : 0 < inject_Z z) by (change 0 with (inject_Z 0); rewrite <- Zlt_Qlt; lia).
  assert (L : floor_log2 (inject_Z z) = Z.log2 z).
  { unfold floor_log2.
    assert (E : Qle_bool 1 (inject_Z z) = true).
    { apply Qle_bool_iff. change 1 with (inject_Z 1). rewrite <- Zle_Qle. lia. }
    rewrite E, Qfloor_Z. reflexivity. }
  pose proof (Z.log2_nonneg z) as P.
  assert (U : (Z.log2 z <= 53)%Z).
  { change 53%Z with (Z.log2 (2 ^ 53)). apply Z.log2_le_mono. exact Hb. }
  unfold round_positive. cbv zeta. unfold ulp_exponent. rewrite L.
  rewrite Z.max_l by lia.
  destruct (Z.eq_dec (Z.log2 z) 53) as [E53 | N53].
  - destruct (Z.log2_spec z Hz) as [Lo _]. rewrite E53 in *.
    assert (z = 2 ^ 53)%Z by lia. subst z. vm_compute. reflexivity.
  - set (k := (52 - Z.log2 z)%Z).
    assert (Hk : (0 <= k)%Z) by (unfold k; lia).
    replace (Z.log2 z - 52)%Z with (- k)%Z by (unfold k; lia).
    assert (E : inject_Z z / pow2 (- k) == inject_Z (z * 2 ^ k)).
    { rewrite pow2_opp, pow2_Z by exact Hk.
      rewrite inject_Z_mult. field.
      change 0 with (inject_Z 0). rewrite inject_Z_injective.
      pose proof (Z.pow_pos_nonneg 2 k). lia. }
    rewrite (round_half_even_comp _ _ E), round_half_even_integer.
    rewrite pow2_opp, pow2_Z by exact Hk.
    rewrite inject_Z_mult. field.
    change 0 with (inject_Z 0). rewrite inject_Z_injective.
    pose proof (Z.pow_pos_nonneg 2 k). lia.
Qed.

Lemma round_nearest_even_integer (z : Z) :
  (Z.abs z <= 2 ^ 53)%Z -> round_nearest_even (inject_Z z) == inject_Z z.
Proof.
  intros H.
  destruct (round_nearest_even_cases (inject_Z z)) as [[Hz ->] | [[Hz ->] | [Hz ->]]].
  - apply round_positive_integer.
    change 0 with (inject_Z 0) in Hz. rewrite <- Zlt_Qlt in Hz. lia.
  - symmetry. exact Hz.
  - change 0 with (inject_Z 0) in Hz. rewrite <- Zlt_Qlt in Hz.
    change (- inject_Z z) with (inject_Z (- z)).
    rewrite round_positive_integer by lia.
    rewrite inject_Z_opp. ring.
Qed.

Lemma round_positive_relative (x : Q) :
  smallest_normal <= x ->
  x - unit_roundoff * x <= round_positive x
  /\ round_positive x <= x + unit_roundoff * x.
Proof.
  intros Hn.
  assert (S : smallest_normal == pow2 (-1022)) by (vm_compute; reflexivity).
  rewrite S in Hn.
  assert (Hx : 0 < x) by (pose proof (pow2_pos (-1022)); lra).
  pose proof (floor_log2_lower x (-1022) Hn) as Hl.
  assert (E : ulp_exponent x = (floor_log2 x - 52)%Z)
    by (unfold ulp_exponent; lia).
  destruct (round_positive_error x) as [L U].
  destruct (floor_log2_spec x Hx) as [Lo _].
  rewrite E in L, U.
  replace (floor_log2 x) with ((floor_log2 x - 52) + 52)%Z in Lo at 1 by lia.
  rewrite pow2_add in Lo. rewrite (pow2_Z 52) in Lo by lia.
  pose proof (pow2_pos (floor_log2 x - 52)) as P.
  set (p := pow2 (floor_log2 x - 52)) in *. clearbody p.
  unfold unit_roundoff.
  change (1 # 2 ^ 53) with (1 # 9007199254740992).
  change (inject_Z (2 ^ 52)) with 4503599627370496 in Lo.
  split; qlra.
Qed.

Lemma round_nearest_even_error (x : Q) :
  smallest_normal <= Qabs x -> Qabs x <= largest_power ->
  Qabs (round_nearest_even x - x) <= unit_roundoff * Qabs x.
Proof.
  intros Hn _.
  assert (S : 0 < smallest_normal) by reflexivity.
  apply Qabs_Qle_condition.
  destruct (round_nearest_even_cases x) as [[Hx ->] | [[Hx ->] | [Hx ->]]].
  - rewrite (Qabs_pos x) in * by lra.
    destruct (round_positive_relative x Hn). split; lra.
  - rewrite Hx in Hn. change (Qabs 0) with 0 in Hn. lra.
  - rewrite (Qabs_neg x) in * by lra.
    destruct (round_positive_relative (- x) Hn). split; lra.
Qed.

End RoundNearestEven.

(** Binary64 rounding is a rounding in the sense of [Float64]. *)
Definition binary64 : Float64 :=
  {| fl := round_nearest_even;
     fl_compat := round_nearest_even_compat;
     fl_monotone := round_nearest_even_mono;
     fl_integer := round_nearest_even_integer;
     fl_error := round_nearest_even_error |}.

(** At 6970 ft overhead the formula gives 44.95, a rounding tie in exact
    arithmetic; the float that binary64 arithmetic reaches lies just
    below it. *)
Lemma estimate_noise_below_tie :
  @Binary64.estimate_noise binary64 (Fin 6970) (Fin 0) ~= Fin 44.9
  /\ estimate_noise (Fin 6970) (Fin 0) ~= Fin 45.
Proof. split; vm_compute; reflexivity. Qed.

(** ** Claims about the noise estimate *)

(** C3, as stated, fails: at altitude 0 ft and distance 0 km the formula
    of the specification gives 80 dB, while [estimate_noise] first
    raises the altitude to 100 ft and the distance to 0.1 km and
    returns 79.3. *)
Lemma C3_ground_level_is_not_80 :
  NoiseSpec.noise_db NoiseSpec.defaults 0 0 == 80
  /\ ~ estimate_noise (Fin 0) (Fin 0)
       ~= Fin (NoiseSpec.noise_db NoiseSpec.defaults 0 0).
Proof.
  split; [reflexivity|].
  vm_compute. discriminate.
Qed.

(** C3, amended: for every defined altitude and distance the estimate is
    the formula of the specification applied to the altitude clamped to
    at least 100 ft and the distance clamped to at least 0.1 km,
    evaluated in binary64 arithmetic and rounded to one decimal: for
    every rounding [fl] with the laws of round-to-nearest it is a whole
    number of tenths within 0.05 dB of the exact value of that formula,
    up to a rounding error below 10^-12; altitude 10000 ft at 10 km
    gives exactly 30, and altitude 0 ft at 0 km gives 79.3. *)
Theorem C3_noise_formula_clamped_rounded :
  forall F : Float64,
    (forall a d : Q,
        exists tenths : Z,
          Binary64.estimate_noise (Fin a) (Fin d) = Fin (inject_Z tenths / 10)
          /\ Qabs (inject_Z tenths / 10
                   - NoiseSpec.noise_db NoiseSpec.defaults (Qmax a 100) (Qmax d 0.1))
             <= (1 # 20) + (1 # 1000000000000))
    /\ Qmin (10000 / 1000 * 5) 40 == 40
    /\ Qmin (10 * 2) 20 == 20
    /\ Binary64.estimate_noise (Fin 10000) (Fin 10) ~= Fin 30
    /\ Binary64.estimate_noise (Fin 0) (Fin 0) ~= Fin 79.3.
Proof.
  intros F. split; [|split; [reflexivity | split; [reflexivity | split]]].
  - intros a d. rewrite estimate_noise_unrounded.
    destruct (unrounded_near a d) as (L & U & _).
    destruct (round1_near (Binary64.unrounded a d)) as [RL RU].
    exists (round_half_even (Binary64.unrounded a d * 10)).
    split; [reflexivity|].
    fold (NoiseSpec.round1 (Binary64.unrounded a d)).
    apply Qabs_Qle_condition. float_error_value. split; lra.
  - rewrite estimate_noise_unrounded.
    destruct (unrounded_near 10000 10) as (L & U & _).
    assert (E : NoiseSpec.noise_db NoiseSpec.defaults (Qmax 10000 100) (Qmax 10 0.1)
                == 30) by reflexivity.
    rewrite E in L, U.
    rewrite (round1_unique 300);
      [reflexivity | | ]; float_error_value; change (inject_Z 300) with 300; qlra.
  - rewrite estimate_noise_unrounded.
    destruct (unrounded_near 0 0) as (L & U & _).
    assert (E : NoiseSpec.noise_db NoiseSpec.defaults (Qmax 0 100) (Qmax 0 0.1)
                == 79.3) by reflexivity.
    rewrite E in L, U.
    rewrite (round1_unique 793);
      [reflexivity | | ]; float_error_value; change (inject_Z 793) with 793; qlra.
Qed.

(** C10: on defined inputs the estimator clamps the altitude to at least
    100 ft and the distance to at least 0.1 km before it applies the
    attenuation formula, and rounds to one decimal: the result is a
    whole number of tenths, at least 30 and at most 79.3, hence never
    the base level 80; at 0 ft and 0 km it is 79.3. *)
Theorem C10_noise_clamped_below_base :
  (forall a d : Q,
      estimate_noise (Fin a) (Fin d)
      = estimate_noise (Fin (Qmax a 100)) (Fin (Qmax d 0.1))
      /\ exists tenths : Z,
           estimate_noise (Fin a) (Fin d) = Fin (inject_Z tenths / 10)
           /\ (300 <= tenths <= 793)%Z
           /\ inject_Z tenths / 10 <= 79.3
           /\ inject_Z tenths / 10 < 80)
  /\ estimate_noise (Fin 0) (Fin 0) ~= Fin 79.3.
Proof.
  split; [|vm_compute; reflexivity].
  intros a d. split.
  - rewrite !estimate_noise_clamped. f_equal. apply round1_comp.
    unfold NoiseSpec.noise_db.
    rewrite (Q.max_l (Qmax a 100) 100) by apply Q.le_max_r.
    rewrite (Q.max_l (Qmax d 0.1) 0.1) by apply Q.le_max_r.
    reflexivity.
  - rewrite estimate_noise_clamped. unfold NoiseSpec.round1.
    destruct (noise_db_bounds a d) as [Hlo Hhi].
    set (v := NoiseSpec.noise_db _ _ _) in *.
    exists (round_half_even (v * 10)).
    assert (L : (300 <= round_half_even (v * 10))%Z)
      by (apply round_half_even_lower; change (inject_Z 300) with 300; lra).
    assert (U : (round_half_even (v * 10) <= 793)%Z)
      by (apply round_half_even_upper; change (inject_Z 793) with 793; lra).
    split; [reflexivity|]. split; [lia|].
    rewrite Zle_Qle in U. change (inject_Z 793) with 793 in U.
    split; qlra.
Qed.

(** C6, as stated, fails in its last part: a report with defined
    geometry (here 10 km from the reference) and an undefined altitude
    gets the estimate 0, below the floor of 30 dB. *)
Lemma C6_undefined_altitude_below_floor :
  isna (Fin 10) = false
  /\ estimate_noise NaN (Fin 10) = Fin 0
  /\ (estimate_noise NaN (Fin 10) <? Fin 30)%py = true.
Proof. repeat split. Qed.

(** C6, amended: at a fixed defined distance a higher altitude never
    gives a higher estimate; at a fixed defined altitude a larger
    distance never gives a higher estimate; and on a defined altitude
    and a defined distance the estimate is never below 30 dB. *)
Theorem C6_noise_monotone :
  forall a1 a2 d1 d2 : Q,
    (a1 <= a2 ->
     (estimate_noise (Fin a2) (Fin d1) <=? estimate_noise (Fin a1) (Fin d1))%py = true)
    /\ (d1 <= d2 ->
        (estimate_noise (Fin a1) (Fin d2) <=? estimate_noise (Fin a1) (Fin d1))%py = true)
    /\ (estimate_noise (Fin a1) (Fin d1) >=? Fin 30)%py = true.
Proof.
  intros a1 a2 d1 d2. rewrite !estimate_noise_clamped.
  repeat split.
  - intros Ha. apply leb_fin, round1_mono, noise_db_antitone; [exact Ha | lra].
  - intros Hd. apply leb_fin, round1_mono, noise_db_antitone; [lra | exact Hd].
  - apply geb_fin.
    apply Qle_trans with (inject_Z 300 / 10);
      [change (inject_Z 300) with 300; qlra|].
    apply round1_lower. change (inject_Z 300) with 300.
    destruct (noise_db_bounds a1 d1). qlra.
Qed.

Lemma C6_noise_monotone_witness :
  (estimate_noise (Fin 5000) (Fin 3) <=? estimate_noise (Fin 2500) (Fin 3))%py = true
  /\ (estimate_noise (Fin 2500) (Fin 8) <=? estimate_noise (Fin 2500) (Fin 3))%py = true.
Proof.
  split.
  - apply (proj1 (C6_noise_monotone 2500 5000 3 8)). lra.
  - apply (proj1 (proj2 (C6_noise_monotone 2500 5000 3 8))). lra.
Defined.

(** ** The noise tier *)

(** C7, as stated, fails in its last part: the tier function has no
    undefined result; a NaN estimate compares false against every cut
    point and is labelled Minimal Impact, one of the four categories. *)
Lemma C7_undefined_noise_is_minimal :
  isna NaN = true /\ noise_impact_level NaN = "Minimal Impact"%string.
Proof. split; reflexivity. Qed.

(** C7, amended: a defined estimate [n] is High Impact when [n >= 65],
    Moderate Impact when [55 <= n < 65], Low Impact when [45 <= n < 55]
    and Minimal Impact when [n < 45]; the tier is always one of these
    four, and an undefined (NaN) estimate, like the placeholder 0, is
    labelled Minimal Impact. *)
Theorem C7_noise_tier :
  (forall n : Q,
      (65 <= n -> noise_impact_level (Fin n) = "High Impact"%string)
      /\ (55 <= n -> n < 65 -> noise_impact_level (Fin n) = "Moderate Impact"%string)
      /\ (45 <= n -> n < 55 -> noise_impact_level (Fin n) = "Low Impact"%string)
      /\ (n < 45 -> noise_impact_level (Fin n) = "Minimal Impact"%string))
  /\ (forall x : pyfloat,
         In (noise_impact_level x)
            ["High Impact"; "Moderate Impact"; "Low Impact"; "Minimal Impact"]%string)
  /\ noise_impact_level NaN = "Minimal Impact"%string
  /\ noise_impact_level (Fin 0) = "Minimal Impact"%string.
Proof.
  split; [|split; [|split; reflexivity]].
  - intros n. unfold noise_impact_level.
    destruct (Fin n >=? Fin 65)%py eqn:E65;
      [apply geb_fin in E65 | apply geb_fin_false in E65];
    (destruct (Fin n >=? Fin 55)%py eqn:E55;
      [apply geb_fin in E55 | apply geb_fin_false in E55]);
    (destruct (Fin n >=? Fin 45)%py eqn:E45;
      [apply geb_fin in E45 | apply geb_fin_false in E45]);
    repeat split; intros; solve [reflexivity | lra].
  - intros x. unfold noise_impact_level.
    destruct (x >=? Fin 65)%py; [simpl; auto|].
    destruct (x >=? Fin 55)%py; [simpl; auto|].
    destruct (x >=? Fin 45)%py; simpl; auto.
Qed.

Lemma C7_noise_tier_witness :
  noise_impact_level (Fin 70) = "High Impact"%string
  /\ noise_impact_level (Fin 60) = "Moderate Impact"%string
  /\ noise_impact_level (Fin 50) = "Low Impact"%string
  /\ noise_impact_level (Fin 30) = "Minimal Impact"%string.
Proof.
  split; [|split; [|split]].
  - apply (proj1 (proj1 C7_noise_tier 70)). lra.
  - apply (proj1 (proj2 (proj1 C7_noise_tier 60))); lra.
  - apply (proj1 (proj2 (proj2 (proj1 C7_noise_tier 50)))); lra.
  - apply (proj2 (proj2 (proj2 (proj1 C7_noise_tier 30)))); lra.
Defined.

(** ** The operation phase *)

(** Case analysis on every comparison of two finite floats in the goal,
    each case carrying the corresponding fact on rationals. *)
Ltac compare_finite :=
  repeat match goal with
    | |- context [ (Fin ?x <? Fin ?y)%py ] =>
        let E := fresh "E" in
        destruct (Fin x <? Fin y)%py eqn:E;
        [apply ltb_fin in E | apply ltb_fin_false in E]
    | |- context [ (Fin ?x <=? Fin ?y)%py ] =>
        let E := fresh "E" in
        destruct (Fin x <=? Fin y)%py eqn:E;
        [apply leb_fin in E | apply leb_fin_false in E]
    | |- context [ (Fin ?x >=? Fin ?y)%py ] =>
        let E := fresh "E" in
        destruct (Fin x >=? Fin y)%py eqn:E;
        [apply geb_fin in E | apply geb_fin_false in E]
    end.


(** C4, as stated, fails in its clause on the undefined altitude: for a
    frame without altitude column [row.get('baro_altitude', 0)]
    supplies the altitude 0, which is below every threshold; 3 km from
    the airport the phase is Landing/Takeoff, the first branch of the
    band, not Airport Vicinity. *)
Lemma C4_absent_altitude_takes_first_branch :
  row_get (@None pyfloat) (Fin 0) = Fin 0
  /\ classify_operation_row (Fin 3) None = "Landing/Takeoff"%string
  /\ classify_operation_row (Fin 3) None <> "Airport Vicinity"%string.
Proof. split; [reflexivity | split; [reflexivity | discriminate]]. Qed.

(** C4, amended: with a defined distance [d] to the airport the phase
    follows the decision table of the specification, band by band; an
    altitude cell that is NaN is not below any threshold and takes the
    else branch of its band; for a row without altitude column the
    default altitude 0 takes the first branch of its band; 20 km at
    8000 ft is Extended Approach. *)
Theorem C4_operation_phase_table :
  forall d a : Q,
    (d < 5 ->
       (a < 1000 ->
        classify_operation_row (Fin d) (Some (Fin a)) = "Landing/Takeoff"%string)
       /\ (1000 <= a ->
           classify_operation_row (Fin d) (Some (Fin a)) = "Airport Vicinity"%string)
       /\ classify_operation_row (Fin d) (Some NaN) = "Airport Vicinity"%string
       /\ classify_operation_row (Fin d) None = "Landing/Takeoff"%string)
    /\ (5 <= d -> d < 15 ->
       (a < 5000 ->
        classify_operation_row (Fin d) (Some (Fin a)) = "Approach/Departure"%string)
       /\ (5000 <= a ->
           classify_operation_row (Fin d) (Some (Fin a)) = "Transit (Low)"%string)
       /\ classify_operation_row (Fin d) (Some NaN) = "Transit (Low)"%string
       /\ classify_operation_row (Fin d) None = "Approach/Departure"%string)
    /\ (15 <= d -> d < 30 ->
       (a < 10000 ->
        classify_operation_row (Fin d) (Some (Fin a)) = "Extended Approach"%string)
       /\ (10000 <= a ->
           classify_operation_row (Fin d) (Some (Fin a)) = "Transit (Medium)"%string)
       /\ classify_operation_row (Fin d) (Some NaN) = "Transit (Medium)"%string
       /\ classify_operation_row (Fin d) None = "Extended Approach"%string)
    /\ (30 <= d ->
       classify_operation_row (Fin d) (Some (Fin a)) = "Transit (High)"%string
       /\ classify_operation_row (Fin d) (Some NaN) = "Transit (High)"%string
       /\ classify_operation_row (Fin d) None = "Transit (High)"%string)
    /\ (forall threshold : pyfloat, (NaN <? threshold)%py = false)
    /\ (forall threshold : Q,
          0 < threshold ->
          (row_get None (Fin 0) <? Fin threshold)%py = true)
    /\ classify_operation_row (Fin 20) (Some (Fin 8000)) = "Extended Approach"%string.
Proof.
  intros d a. unfold classify_operation_row, row_get, classify_operation.
  cbv zeta.
  change (Fin d =? infinity)%py with false. cbv iota.
  rewrite !nan_ltb.
  repeat split; intros; try reflexivity; try (apply ltb_fin; assumption);
    compare_finite; solve [reflexivity | lra].
Qed.

Lemma C4_operation_phase_table_witness :
  classify_operation_row (Fin 3) (Some (Fin 800)) = "Landing/Takeoff"%string
  /\ classify_operation_row (Fin 10) (Some NaN) = "Transit (Low)"%string
  /\ classify_operation_row (Fin 20) None = "Extended Approach"%string
  /\ classify_operation_row (Fin 45) (Some (Fin 800)) = "Transit (High)"%string.
Proof.
  split; [|split; [|split]].
  - apply (proj1 (C4_operation_phase_table 3 800)); lra.
  - apply (proj1 (proj2 (C4_operation_phase_table 10 0))); lra.
  - apply (proj1 (proj2 (proj2 (C4_operation_phase_table 20 12000)))); lra.
  - apply (proj1 (proj2 (proj2 (proj2 (C4_operation_phase_table 45 800))))); lra.
Defined.

(** ** The approach corridor *)

Lemma identify_corridor_finite (b : Q) :
  identify_corridor (Some (Fin b)) =
  (if (Fin b >=? Fin 315)%py || (Fin b <=? Fin 45)%py then "north"
   else if (Fin 45 <=? Fin b)%py && (Fin b <=? Fin 90)%py then "northeast"
   else if (Fin 90 <=? Fin b)%py && (Fin b <=? Fin 135)%py then "east"
   else if (Fin 135 <=? Fin b)%py && (Fin b <=? Fin 180)%py then "southeast"
   else if (Fin 180 <=? Fin b)%py && (Fin b <=? Fin 225)%py then "south"
   else if (Fin 225 <=? Fin b)%py && (Fin b <=? Fin 270)%py then "southwest"
   else if (Fin 270 <=? Fin b)%py && (Fin b <=? Fin 315)%py then "west"
   else "Other")%string.
Proof. reflexivity. Qed.

(** Settle the comparisons in the test of the leading conditional from
    the rational facts in the context, then take the branch. *)
Ltac head_test :=
  match goal with
  | |- (if ?c then _ else _) = _ =>
      match c with
      | context [ (Fin ?x <=? Fin ?y)%py ] =>
          first [ rewrite (proj2 (leb_fin x y)) by lra
                | rewrite (proj2 (leb_fin_false x y)) by lra ]
      | context [ (Fin ?x >=? Fin ?y)%py ] =>
          first [ rewrite (proj2 (geb_fin x y)) by lra
                | rewrite (proj2 (geb_fin_false x y)) by lra ]
      | context [ (Fin ?x <? Fin ?y)%py ] =>
          first [ rewrite (proj2 (ltb_fin x y)) by lra
                | rewrite (proj2 (ltb_fin_false x y)) by lra ]
      end
  end; cbn [orb andb].

(** C2, as stated, fails: the corridor table has seven entries (no
    northwest), and a bearing of exactly 45.0 is still in the north
    corridor, not in the northeast one. *)
Lemma C2_bearing_45_is_north :
  identify_corridor (Some (Fin 45)) = "north"%string
  /\ identify_corridor (Some (Fin 45)) <> "northeast"%string
  /\ length approach_corridors = 7%nat.
Proof.
  split; [reflexivity | split; [discriminate | reflexivity]].
Qed.

(** C2, amended: every defined bearing [b] in [0, 360] is assigned
    exactly one of the seven declared corridors, the first one in
    declaration order whose closed range contains it: north for
    [315, 360] and [0, 45] (90 degrees), then six arcs of 45 degrees,
    northeast (45, 90], east (90, 135], southeast (135, 180],
    south (180, 225], southwest (225, 270] and west (270, 315); there is
    no northwest corridor; a bearing on a boundary belongs to the
    corridor declared first, so 44.9 and 45.0 are both north. *)
Theorem C2_corridor_assignment :
  (forall b : Q, 0 <= b -> b <= 360 ->
     ((b <= 45 \/ 315 <= b) ->
        identify_corridor (Some (Fin b)) = "north"%string)
     /\ (45 < b -> b <= 90 ->
        identify_corridor (Some (Fin b)) = "northeast"%string)
     /\ (90 < b -> b <= 135 ->
        identify_corridor (Some (Fin b)) = "east"%string)
     /\ (135 < b -> b <= 180 ->
        identify_corridor (Some (Fin b)) = "southeast"%string)
     /\ (180 < b -> b <= 225 ->
        identify_corridor (Some (Fin b)) = "south"%string)
     /\ (225 < b -> b <= 270 ->
        identify_corridor (Some (Fin b)) = "southwest"%string)
     /\ (270 < b -> b < 315 ->
        identify_corridor (Some (Fin b)) = "west"%string))
  /\ map fst approach_corridors
     = ["north"; "northeast"; "east"; "southeast"; "south"; "southwest"; "west"]%string
  /\ identify_corridor (Some (Fin 44.9)) = "north"%string
  /\ identify_corridor (Some (Fin 45)) = "north"%string.
Proof.
  split; [|repeat split].
  intros b Hlo Hhi. rewrite identify_corridor_finite.
  repeat split; [intros [?|?] | intros ? ? ..]; repeat head_test; reflexivity.
Qed.

Lemma C2_corridor_assignment_witness :
  identify_corridor (Some (Fin 350)) = "north"%string
  /\ identify_corridor (Some (Fin 90)) = "northeast"%string
  /\ identify_corridor (Some (Fin 200)) = "south"%string
  /\ identify_corridor (Some (Fin 300)) = "west"%string.
Proof.
  split; [|split; [|split]].
  - apply (proj1 (proj1 C2_corridor_assignment 350 ltac:(lra) ltac:(lra))). lra.
  - apply (proj1 (proj2 (proj1 C2_corridor_assignment 90 ltac:(lra) ltac:(lra)))); lra.
  - apply (proj1 (proj2 (proj2 (proj2 (proj2
             (proj1 C2_corridor_assignment 200 ltac:(lra) ltac:(lra))))))); lra.
  - apply (proj2 (proj2 (proj2 (proj2 (proj2 (proj2
             (proj1 C2_corridor_assignment 300 ltac:(lra) ltac:(lra)))))))); lra.
Defined.

(** ** The bearing *)

Section Bearing.

Lemma Qfloor_unique (x : Q) (z : Z) :
  inject_Z z <= x -> x < inject_Z z + 1 -> Qfloor x = z.
Proof.
  intros Hlo Hhi.
  pose proof (Qfloor_le x) as L. pose proof (Qlt_floor x) as U.
  rewrite inject_Z_plus in U. change (inject_Z 1) with 1 in U.
  assert (H1 : inject_Z (Qfloor x) < inject_Z (z + 1)).
  { rewrite inject_Z_plus. change (inject_Z 1) with 1. lra. }
  assert (H2 : inject_Z z < inject_Z (Qfloor x + 1)).
  { rewrite inject_Z_plus. change (inject_Z 1) with 1. lra. }
  rewrite <- Zlt_Qlt in H1, H2. lia.
Qed.

Lemma normalize_bearing_finite (q : Q) :
  normalize_bearing (Fin q) =
  Fin (NoiseSpec.round1 (q + 360 - 360 * inject_Z (Qfloor ((q + 360) / 360)))).
Proof. reflexivity. Qed.

(** One turn: the remainder lies in [0, 360). *)
Lemma wrap_range (q : Q) :
  let m := q + 360 - 360 * inject_Z (Qfloor ((q + 360) / 360)) in
  0 <= m /\ m < 360.
Proof.
  cbv zeta.
  pose proof (Qfloor_le ((q + 360) / 360)) as L.
  pose proof (Qlt_floor ((q + 360) / 360)) as U.
  rewrite inject_Z_plus in U. change (inject_Z 1) with 1 in U.
  set (f := inject_Z (Qfloor ((q + 360) / 360))) in *.
  split; qlra.
Qed.

(** What does hold of the rounded bearing: it lies in the closed
    interval from 0 to 360. *)
Lemma normalize_bearing_range (q : Q) :
  exists b : Q, normalize_bearing (Fin q) = Fin b /\ 0 <= b /\ b <= 360.
Proof.
  rewrite normalize_bearing_finite.
  destruct (wrap_range q) as [Hlo Hhi]. cbv zeta in Hlo, Hhi.
  set (m := q + 360 - _) in *.
  exists (NoiseSpec.round1 m). split; [reflexivity|]. split.
  - apply Qle_trans with (inject_Z 0 / 10); [change (inject_Z 0) with 0; qlra|].
    apply round1_lower. change (inject_Z 0) with 0. qlra.
  - apply Qle_trans with (inject_Z 3600 / 10);
      [|change (inject_Z 3600) with 3600; qlra].
    apply round1_upper. change (inject_Z 3600) with 3600. qlra.
Qed.

Lemma round1_just_below_360 (m : Q) :
  359.95 <= m -> m < 360 -> NoiseSpec.round1 m == 360.
Proof.
  intros Hlo Hhi. unfold NoiseSpec.round1.
  assert (F : Qfloor (m * 10) = 3599%Z).
  { apply Qfloor_unique; change (inject_Z 3599) with 3599; lra. }
  assert (R : round_half_even (m * 10) = 3600%Z).
  { unfold round_half_even. rewrite F. change (inject_Z 3599) with 3599.
    destruct (Qcompare_spec (m * 10 - 3599) (1 # 2)); [reflexivity | lra | reflexivity]. }
  rewrite R. reflexivity.
Qed.

End Bearing.

(** C5: the bearing is meant to lie in [0, 360), but the rounding to one
    decimal comes after the wrap into one turn: whenever the initial
    bearing is a little west of north, between -0.05 and 0 degrees, the
    wrapped value lies in [359.95, 360) and [bearing_from_schiphol]
    returns 360.0. *)
Theorem C5_bearing_rounds_up_to_360 :
  forall (M : MathModule) (r : row) (q : Q),
    isna (latitude r) = false ->
    isna (longitude r) = false ->
    great_circle_bearing r = Fin q ->
    -0.05 < q -> q < 0 ->
    exists b : Q, bearing_from_schiphol r = Some (Fin b) /\ b == 360.
Proof.
  intros M r q Hlat Hlon Hraw Hlo Hhi.
  unfold bearing_from_schiphol. rewrite Hlat, Hlon, Hraw. cbn [orb].
  rewrite normalize_bearing_finite.
  assert (F : Qfloor ((q + 360) / 360) = 0%Z).
  { apply Qfloor_unique; change (inject_Z 0) with 0; qlra. }
  rewrite F. eexists; split; [reflexivity|].
  apply round1_just_below_360; change (inject_Z 0) with 0; lra.
Qed.

(** A report 21 km north of Schiphol and 0.0001 degrees west of its
    meridian: the initial bearing is about -0.02 degrees. *)
Lemma C5_bearing_rounds_up_to_360_witness :
  exists b : Q,
    bearing_from_schiphol (H := Sample.math)
      (Sample.flight (Fin 52.5) (Fin 4.7682) (Fin 2500)) = Some (Fin b)
    /\ b == 360.
Proof.
  assert (R : exists q,
    great_circle_bearing (H := Sample.math)
      (Sample.flight (Fin 52.5) (Fin 4.7682) (Fin 2500)) = Fin q
    /\ -0.05 < q /\ q < 0).
  { eexists. split; [vm_compute; reflexivity|]. split; reflexivity. }
  destruct R as (q & Hq & Hlo & Hhi).
  exact (C5_bearing_rounds_up_to_360 Sample.math
           (Sample.flight (Fin 52.5) (Fin 4.7682) (Fin 2500)) q
           eq_refl eq_refl Hq Hlo Hhi).
Defined.

(** ** The aircraft category heuristic *)

Section AircraftCategory.

Local Open Scope string_scope.

Lemma startswith_cons_inv (c : ascii) (p s : string) :
  startswith s (String c p) = true ->
  exists rest, s = String c rest /\ startswith rest p = true.
Proof.
  unfold startswith. destruct s as [|c' rest]; simpl; [discriminate|].
  destruct (ascii_dec c c') as [->|]; [|discriminate].
  intros H. exists rest. auto.
Qed.

(** The loop stops at the first pattern the callsign starts with,
    whatever follows it in the table. *)
Lemma match_airline_first_match
  (pre post : list (string * airline_info)) (pattern : string)
  (info : airline_info) (cs : string) (c : classification) :
  startswith cs pattern = true ->
  (forall p i, In (p, i) pre -> startswith cs p = false) ->
  match_airline (pre ++ (pattern, info) :: post) cs c
  = set_likely_commercial (update c info) true.
Proof.
  intros Hm Hpre. induction pre as [|[p i] pre IH]; simpl.
  - rewrite Hm. reflexivity.
  - rewrite (Hpre p i) by (left; reflexivity).
    apply IH. intros p' i' Hin. apply (Hpre p' i'). right. exact Hin.
Qed.

(** No callsign starting with an airline pattern starts with a private
    pattern. *)
Lemma airline_callsign_not_private (cs p : string) (i : airline_info) :
  In (p, i) airline_patterns ->
  startswith cs p = true ->
  startswith_any cs private_patterns = false.
Proof.
  intros Hin Hm. simpl in Hin.
  repeat (destruct Hin as [Hin|Hin];
          [ injection Hin as <- _;
            apply startswith_cons_inv in Hm; destruct Hm as (s1 & -> & Hm);
            apply startswith_cons_inv in Hm; destruct Hm as (s2 & -> & Hm);
            reflexivity
          | ]).
  contradiction.
Qed.

Lemma match_airline_category (cs : string) (c : classification) :
  category (match_airline airline_patterns cs c) = category c
  \/ category (match_airline airline_patterns cs c) = "Major Carrier"
  \/ category (match_airline airline_patterns cs c) = "Low Cost Carrier".
Proof.
  unfold airline_patterns, match_airline.
  repeat match goal with
    | |- context [ startswith cs ?p ] => destruct (startswith cs p)
    end; simpl; auto.
Qed.

(** The labels [classify_aircraft_by_icao] can put in [category]. *)
Lemma classify_aircraft_category_label (icao24 : string) (callsign : option string) :
  In (category (classify_aircraft_by_icao icao24 callsign))
     ["Unknown"; "Commercial"; "Private/Corporate"; "Netherlands Registered";
      "Major Carrier"; "Low Cost Carrier"; "Private/General Aviation"].
Proof.
  set (category_labels := [_; _; _; _; _; _; _]).
  unfold classify_aircraft_by_icao.
  destruct (truthy icao24); cbn [negb]; [|subst category_labels; simpl; auto].
  set (i := strip (upper icao24)).
  set (c0 := if startswith_any i _ then _ else _).
  assert (H0 : In (category c0)
                 ["Unknown"; "Commercial"; "Private/Corporate";
                  "Netherlands Registered"]).
  { subst c0.
    destruct (startswith_any i ["4"; "D"; "G"; "F"; "I"]); [simpl; auto|].
    destruct (startswith_any i ["A"; "C"]); [simpl; auto|].
    destruct (startswith i "PH"); simpl; auto. }
  clearbody c0.
  assert (Hbase : In (category c0) category_labels)
    by (subst category_labels; simpl in H0 |- *; intuition auto).
  destruct callsign as [cs|]; [|exact Hbase].
  destruct (truthy cs); [|exact Hbase].
  destruct (startswith_any _ private_patterns && _);
    [subst category_labels; simpl; auto 10|].
  destruct (match_airline_category (upper (strip cs)) c0) as [E|[E|E]];
    rewrite E; [exact Hbase | subst category_labels; simpl; auto 10 ..].
Qed.

End AircraftCategory.

(** C9: the classifier always returns a category, one of its seven
    labels; an empty identifier gives Unknown whatever the callsign; and
    the pattern loop is first-match-wins: the first entry of the table,
    in declaration order, that the callsign starts with decides, even
    when later entries match too, and for the airline table that entry
    gives the type and the category of the result. *)
Theorem C9_aircraft_category :
  (forall (icao24 : string) (callsign : option string),
      In (category (classify_aircraft_by_icao icao24 callsign))
         ["Unknown"; "Commercial"; "Private/Corporate"; "Netherlands Registered";
          "Major Carrier"; "Low Cost Carrier"; "Private/General Aviation"]%string)
  /\ (forall callsign : option string,
         category (classify_aircraft_by_icao "" callsign) = "Unknown"%string)
  /\ (forall (pre post : list (string * airline_info)) (pattern : string)
             (info : airline_info) (callsign : string) (c : classification),
         startswith callsign pattern = true ->
         (forall p i, In (p, i) pre -> startswith callsign p = false) ->
         match_airline (pre ++ (pattern, info) :: post) callsign c
         = set_likely_commercial (update c info) true)
  /\ (forall (icao24 callsign : string)
             (pre post : list (string * airline_info)) (pattern : string)
             (info : airline_info),
         airline_patterns = pre ++ (pattern, info) :: post ->
         truthy icao24 = true ->
         truthy callsign = true ->
         startswith (upper (strip callsign)) pattern = true ->
         (forall p i, In (p, i) pre -> startswith (upper (strip callsign)) p = false) ->
         type (classify_aircraft_by_icao icao24 (Some callsign)) = airline_type info
         /\ category (classify_aircraft_by_icao icao24 (Some callsign))
            = airline_category info
         /\ likely_commercial (classify_aircraft_by_icao icao24 (Some callsign))
            = Some true).
Proof.
  split; [exact classify_aircraft_category_label|].
  split; [reflexivity|].
  split; [exact match_airline_first_match|].
  intros icao24 callsign pre post pattern info Htab Hi Hc Hm Hpre.
  unfold classify_aircraft_by_icao. rewrite Hi, Hc. cbn [negb].
  rewrite Htab, (match_airline_first_match pre post pattern info _ _ Hm Hpre).
  rewrite (airline_callsign_not_private (upper (strip callsign)) pattern info).
  - cbn [andb]. repeat split.
  - rewrite Htab. apply in_or_app. right. left. reflexivity.
  - exact Hm.
Qed.

Lemma C9_aircraft_category_witness :
  type (classify_aircraft_by_icao "484506" (Some " ezy456 "%string)) = "EasyJet"%string
  /\ category (classify_aircraft_by_icao "484506" (Some " ezy456 "%string))
     = "Low Cost Carrier"%string
  /\ likely_commercial (classify_aircraft_by_icao "484506" (Some " ezy456 "%string))
     = Some true.
Proof.
  refine (proj2 (proj2 (proj2 C9_aircraft_category)) "484506"%string " ezy456 "%string
           (firstn 2 airline_patterns) (skipn 3 airline_patterns) "EZY"%string
           {| airline_type := "EasyJet"; airline_category := "Low Cost Carrier" |}
           eq_refl eq_refl eq_refl eq_refl _).
  intros p i [E|[E|[]]]; injection E as <- _; reflexivity.
Defined.

(** ** Reports without coordinates *)

Section UndefinedCoordinates.

Context {G : Geopy} {M : MathModule}.

Variable target_coords : coords.
Variable r : row.
Hypothesis undefined : isna (latitude r) || isna (longitude r) = true.

Lemma estimate_noise_no_distance (altitude : pyfloat) :
  estimate_noise altitude infinity = Fin 0.
Proof.
  unfold estimate_noise.
  change (infinity =? infinity)%py with true.
  rewrite orb_true_r. reflexivity.
Qed.

Lemma noise_impact_row_undefined :
  noise_impact_row target_coords r
  = Ok {| distance_km := infinity;
          estimated_noise_db := Fin 0;
          noise_impact := "Minimal Impact" |}.
Proof.
  unfold noise_impact_row, calc_distance. rewrite undefined.
  cbn [bind]. rewrite estimate_noise_no_distance. reflexivity.
Qed.

Lemma schiphol_operations_row_undefined :
  schiphol_operations_row r
  = Ok {| distance_to_schiphol_km := infinity;
          bearing_from_schiphol_deg := None;
          schiphol_operation := "Unknown";
          approach_corridor := "Unknown" |}.
Proof.
  unfold schiphol_operations_row, distance_to_schiphol, bearing_from_schiphol.
  rewrite undefined. reflexivity.
Qed.

Lemma process_row_undefined :
  process_row target_coords r
  = Ok {| noise :=
            {| distance_km := infinity;
               estimated_noise_db := Fin 0;
               noise_impact := "Minimal Impact" |};
          operations :=
            {| distance_to_schiphol_km := infinity;
               bearing_from_schiphol_deg := None;
               schiphol_operation := "Unknown";
               approach_corridor := "Unknown" |};
          aircraft := classify_aircraft_by_icao (icao24 r) (callsign r) |}.
Proof.
  unfold process_row.
  rewrite noise_impact_row_undefined, schiphol_operations_row_undefined.
  reflexivity.
Qed.

End UndefinedCoordinates.

(** C1, as stated, fails: for a report without latitude the distance,
    bearing, phase and corridor are undefined, but the noise estimate is
    the number 0 (not an undefined value) and the tier is Minimal
    Impact. *)
Lemma C1_missing_latitude_noise_is_zero :
  exists c : classified_row,
    process_row (H := Sample.geopy) (H0 := Sample.math) Sample.house_coords
      (Sample.flight NaN (Fin 4.90) (Fin 2500)) = Ok c
    /\ estimated_noise_db (noise c) = Fin 0
    /\ isna (estimated_noise_db (noise c)) = false
    /\ noise_impact (noise c) = "Minimal Impact"%string.
Proof.
  eexists. split; [vm_compute; reflexivity|].
  split; [reflexivity | split; reflexivity].
Qed.

(** C1, amended: for every report whose latitude or longitude is
    undefined, and for both reference points, the distance is the
    infinity sentinel, the bearing is None, the operation phase and the
    corridor are Unknown; the noise estimate is the placeholder 0 and
    the noise tier is Minimal Impact. *)
Theorem C1_undefined_coordinates :
  forall (G : Geopy) (M : MathModule) (target_coords : coords) (r : row),
    isna (latitude r) || isna (longitude r) = true ->
    process_row target_coords r
    = Ok {| noise :=
              {| distance_km := infinity;
                 estimated_noise_db := Fin 0;
                 noise_impact := "Minimal Impact" |};
            operations :=
              {| distance_to_schiphol_km := infinity;
                 bearing_from_schiphol_deg := None;
                 schiphol_operation := "Unknown";
                 approach_corridor := "Unknown" |};
            aircraft := classify_aircraft_by_icao (icao24 r) (callsign r) |}.
Proof.
  intros G M target_coords r H. now apply process_row_undefined.
Qed.

Lemma C1_undefined_coordinates_witness :
  process_row (H := Sample.geopy) (H0 := Sample.math) Sample.house_coords
    (Sample.flight (Fin 52.40) NaN (Fin 2500))
  = Ok {| noise :=
            {| distance_km := infinity;
               estimated_noise_db := Fin 0;
               noise_impact := "Minimal Impact" |};
          operations :=
            {| distance_to_schiphol_km := infinity;
               bearing_from_schiphol_deg := None;
               schiphol_operation := "Unknown";
               approach_corridor := "Unknown" |};
          aircraft := classify_aircraft_by_icao "484506" (Some "KLM123"%string) |}.
Proof.
  exact (C1_undefined_coordinates Sample.geopy Sample.math Sample.house_coords
           (Sample.flight (Fin 52.40) NaN (Fin 2500)) eq_refl).
Defined.

(** ** Classification does not raise *)

Section NoException.

Context {G : Geopy} {M : MathModule}.

Variable target_coords : coords.
Hypothesis target_valid : valid_coords target_coords.

Lemma schiphol_coords_valid : valid_coords schiphol_coords.
Proof. reflexivity. Qed.

Lemma process_row_returns (r : row) :
  well_formed r -> exists c, process_row target_coords r = Ok c.
Proof.
  intros [U | V].
  - rewrite (process_row_undefined target_coords r U). eauto.
  - destruct (geodesic_km_valid _ _ V target_valid) as (d & Hd & _).
    destruct (geodesic_km_valid _ _ V schiphol_coords_valid) as (ds & Hds & _).
    unfold process_row, noise_impact_row, schiphol_operations_row,
      calc_distance, distance_to_schiphol.
    destruct (isna (latitude r) || isna (longitude r)); cbn [bind]; [eauto|].
    rewrite Hd, Hds. cbn [bind]. eauto.
Qed.

Lemma process_flight_data_returns (flight_data : list row) :
  Forall well_formed flight_data ->
  exists cs, process_flight_data flight_data target_coords = Ok cs
             /\ length cs = length flight_data.
Proof.
  unfold process_flight_data.
  induction 1 as [|r rest Hr Hrest IH]; simpl.
  - exists []. split; reflexivity.
  - destruct (process_row_returns r Hr) as [c Hc].
    destruct IH as (cs & Hcs & Hlen).
    rewrite Hc. cbn [bind]. rewrite Hcs. cbn [bind].
    exists (c :: cs). split; [reflexivity | simpl; congruence].
Qed.








End NoException.




(** * Further properties of the analyzer *)

(** ** Corridors and phases on arbitrary cells *)

Section AnyCell.

Local Open Scope string_scope.


Lemma find_corridor_named (b : pyfloat) :
  isna b = false ->
  In (find_corridor approach_corridors b)
     ["north"; "northeast"; "east"; "southeast"; "south"; "southwest"; "west"].
Proof.
  destruct b as [q| | |]; intros Hna; try discriminate Hna.
  - change (find_corridor approach_corridors (Fin q))
      with (identify_corridor (Some (Fin q))).
    rewrite identify_corridor_finite.
    destruct (Fin q >=? Fin 315)%py eqn:E1;
      [simpl; auto | apply geb_fin_false in E1].
    destruct (Fin q <=? Fin 45)%py eqn:E2;
      [simpl; auto | apply leb_fin_false in E2].
    cbn [orb].
    rewrite (proj2 (leb_fin 45 q)) by lra. cbn [andb].
    destruct (Fin q <=? Fin 90)%py eqn:E3;
      [simpl; auto | apply leb_fin_false in E3].
    rewrite (proj2 (leb_fin 90 q)) by lra. cbn [andb].
    destruct (Fin q <=? Fin 135)%py eqn:E4;
      [simpl; auto | apply leb_fin_false in E4].
    rewrite (proj2 (leb_fin 135 q)) by lra. cbn [andb].
    destruct (Fin q <=? Fin 180)%py eqn:E5;
      [simpl; auto 10 | apply leb_fin_false in E5].
    rewrite (proj2 (leb_fin 180 q)) by lra. cbn [andb].
    destruct (Fin q <=? Fin 225)%py eqn:E6;
      [simpl; auto 10 | apply leb_fin_false in E6].
    rewrite (proj2 (leb_fin 225 q)) by lra. cbn [andb].
    destruct (Fin q <=? Fin 270)%py eqn:E7;
      [simpl; auto 10 | apply leb_fin_false in E7].
    rewrite (proj2 (leb_fin 270 q)) by lra.
    rewrite (proj2 (leb_fin q 315)) by lra.
    simpl; auto 10.
  - simpl; auto.
  - simpl; auto.
Qed.

End AnyCell.

(** X1: the corridor table covers every bearing value: whatever cell
    [identify_corridor] receives, the answer is Unknown (for None and
    NaN only) or one of the seven corridor names; the fallback label
    Other is never returned. *)
Theorem X1_corridor_never_other :
  forall bearing : option pyfloat,
    identify_corridor bearing <> "Other"%string
    /\ (identify_corridor bearing = "Unknown"%string
        <-> bearing = None \/ bearing = Some NaN)
    /\ (identify_corridor bearing <> "Unknown"%string ->
        In (identify_corridor bearing)
           ["north"; "northeast"; "east"; "southeast"; "south"; "southwest";
            "west"]%string).
Proof.
  intros [b|].
  - destruct (isna b) eqn:Hna.
    + destruct b; try discriminate Hna. simpl.
      repeat split; try discriminate; auto. intros H; now elim H.
    + pose proof (find_corridor_named b Hna) as Hin.
      unfold identify_corridor. rewrite Hna.
      repeat split.
      * intros E. rewrite E in Hin. simpl in Hin.
        repeat (destruct Hin as [Hin|Hin]; [discriminate Hin|]). exact Hin.
      * intros E. rewrite E in Hin. simpl in Hin.
        repeat (destruct Hin as [Hin|Hin]; [discriminate Hin|]). elim Hin.
      * intros [E|E]; [discriminate E|].
        injection E as ->. discriminate Hna.
      * intros _. exact Hin.
  - simpl. repeat split; try discriminate; auto. intros H; now elim H.
Qed.

Lemma X1_corridor_never_other_witness :
  In (identify_corridor (Some (Fin (-20))))
     ["north"; "northeast"; "east"; "southeast"; "south"; "southwest";
      "west"]%string.
Proof.
  apply (proj2 (proj2 (X1_corridor_never_other (Some (Fin (-20)))))).
  discriminate.
Defined.


Lemma high_noise_low_and_close (altitude distance : pyfloat) :
  (estimate_noise altitude distance >=? Fin 65)%py = true ->
  (altitude <? Fin 3000)%py = true /\ (distance <? Fin 7.5)%py = true.
Proof.
  intros H.
  assert (Hfin : forall a d : Q,
             (estimate_noise (Fin a) (Fin d) >=? Fin 65)%py = true ->
             a < 3000 /\ d < 7.5).
  { intros a d Hh. rewrite estimate_noise_fin in Hh. apply geb_fin in Hh.
    set (v := Qmax _ 30) in Hh.
    assert (Hv : 64.9 <= v).
    { destruct (Qlt_le_dec v 64.9) as [L|L]; [|exact L].
      assert (U : NoiseSpec.round1 v <= inject_Z 649 / 10)
        by (apply round1_upper; change (inject_Z 649) with 649; qlra).
      change (inject_Z 649) with 649 in U. qlra. }
    subst v.
    destruct (Q.max_spec (80 - Qmin (Qmax a 100 / 1000 * 5) 40
                             - Qmin (Qmax d 0.1 * 2) 20) 30) as [[? E]|[? E]];
      rewrite E in Hv; [lra|].
    destruct (Q.min_spec (Qmax a 100 / 1000 * 5) 40) as [[? Ea]|[? Ea]];
      rewrite Ea in Hv;
    destruct (Q.min_spec (Qmax d 0.1 * 2) 20) as [[? Ed]|[? Ed]];
      rewrite Ed in Hv;
    pose proof (Q.le_max_l a 100); pose proof (Q.le_max_r a 100);
    pose proof (Q.le_max_l d 0.1); pose proof (Q.le_max_r d 0.1);
    split; qlra. }
  destruct altitude as [a| | |], distance as [d| | |];
    try (vm_compute in H; discriminate H).
  - destruct (Hfin a d H). split; apply ltb_fin; assumption.
  - (* distance -inf: clamped to 0.1 *)
    assert (E : estimate_noise (Fin a) NInf = estimate_noise (Fin a) (Fin 0.1))
      by reflexivity.
    rewrite E in H. destruct (Hfin a 0.1 H).
    split; [now apply ltb_fin | reflexivity].
  - (* distance NaN: the estimate is NaN *)
    exfalso.
    assert (E : estimate_noise (Fin a) NaN = NaN).
    { unfold estimate_noise. cbv zeta.
      change (isna (Fin a) || (NaN =? infinity)%py) with false. cbv iota.
      rewrite pymax_fin.
      rewrite div_fin by (intros E; discriminate E).
      change (Fin (Qmax a 100 / 1000) * Fin 5)%py
        with (Fin (Qmax a 100 / 1000 * 5)).
      rewrite pymin_fin. reflexivity. }
    rewrite E in H. discriminate H.
  - (* altitude +inf: the altitude term is capped at 40 *)
    exfalso.
    assert (E : estimate_noise PInf (Fin d)
                = Fin (NoiseSpec.round1
                         (Qmax (80 - 40 - Qmin (Qmax d 0.1 * 2) 20) 30))).
    { unfold estimate_noise. cbv zeta.
      change (isna PInf || (Fin d =? infinity)%py) with false. cbv iota.
      change (pymin (pymax PInf (Fin 100) / Fin 1000 * Fin 5)%py (Fin 40))
        with (Fin 40).
      rewrite pymax_fin.
      change (Fin (Qmax d 0.1) * Fin 2)%py with (Fin (Qmax d 0.1 * 2)).
      rewrite pymin_fin.
      change (Fin 80 - Fin 40 - Fin ?y)%py with (Fin (80 - 40 - y)).
      rewrite pymax_fin. apply pyround_1. }
    rewrite E in H. apply geb_fin in H.
    set (v := Qmax _ 30) in H.
    assert (Hv : v <= 40).
    { subst v. apply Q.max_lub; [|lra].
      destruct (Q.min_spec (Qmax d 0.1 * 2) 20) as [[? Ed]|[? Ed]];
        rewrite Ed; pose proof (Q.le_max_r d 0.1); lra. }
    assert (U : NoiseSpec.round1 v <= inject_Z 400 / 10)
      by (apply round1_upper; change (inject_Z 400) with 400; qlra).
    change (inject_Z 400) with 400 in U. qlra.
  - (* altitude -inf: clamped to 100 *)
    assert (E : estimate_noise NInf (Fin d) = estimate_noise (Fin 100) (Fin d)).
    { unfold estimate_noise. cbv zeta.
      change (isna NInf || (Fin d =? infinity)%py) with false.
      change (isna (Fin 100) || (Fin d =? infinity)%py) with false.
      reflexivity. }
    rewrite E in H. destruct (Hfin 100 d H).
    split; [reflexivity | now apply ltb_fin].
  - split; reflexivity.
Qed.

(** X3: high noise needs a low and close flight, and a low and close
    flight is high noise: whenever the estimate reaches 65 dB, the
    altitude cell is below 3000 ft and the distance cell is below
    7.5 km, for every pair of cells; conversely every flight at most
    2000 ft high and at most 2.5 km away is estimated at 65 dB or
    more. *)
Theorem X3_high_noise_is_low_and_close :
  (forall altitude distance : pyfloat,
      (estimate_noise altitude distance >=? Fin 65)%py = true ->
      (altitude <? Fin 3000)%py = true /\ (distance <? Fin 7.5)%py = true)
  /\ (forall a d : Q,
        a <= 2000 -> d <= 2.5 ->
        (estimate_noise (Fin a) (Fin d) >=? Fin 65)%py = true).
Proof.
  split; [exact high_noise_low_and_close|].
  intros a d Ha Hd. rewrite estimate_noise_fin. apply geb_fin.
  apply Qle_trans with (inject_Z 650 / 10);
    [change (inject_Z 650) with 650; qlra|].
  apply round1_lower. change (inject_Z 650) with 650.
  apply Qle_trans with (80 - Qmin (Qmax a 100 / 1000 * 5) 40
                           - Qmin (Qmax d 0.1 * 2) 20);
    [|apply Q.le_max_l].
  pose proof (Q.le_min_l (Qmax a 100 / 1000 * 5) 40).
  pose proof (Q.le_min_l (Qmax d 0.1 * 2) 20).
  assert (Qmax a 100 <= 2000) by (apply Q.max_lub; lra).
  assert (Qmax d 0.1 <= 2.5) by (apply Q.max_lub; lra).
  qlra.
Qed.

Lemma X3_high_noise_is_low_and_close_witness :
  ((Fin 1200 <? Fin 3000)%py = true /\ (Fin 0.8 <? Fin 7.5)%py = true)
  /\ (estimate_noise (Fin 1500) (Fin 2) >=? Fin 65)%py = true.
Proof.
  split.
  - apply (proj1 X3_high_noise_is_low_and_close (Fin 1200) (Fin 0.8)).
    vm_compute. reflexivity.
  - apply (proj2 X3_high_noise_is_low_and_close 1500 2); lra.
Defined.

(** ** From bearing to corridor *)

Lemma round1_tenths (q : Q) :
  exists tenths : Z, NoiseSpec.round1 q = inject_Z tenths / 10.
Proof. unfold NoiseSpec.round1. eauto. Qed.

(** X4: for a report with defined coordinates whose initial bearing is a
    finite number, [bearing_from_schiphol] returns a whole number of
    tenths between 0 and 360 (both included), and the corridor assigned
    to it is one of the seven corridor names, never Unknown or Other. *)
Theorem X4_bearing_gets_a_corridor :
  forall (M : MathModule) (r : row) (q : Q),
    isna (latitude r) = false ->
    isna (longitude r) = false ->
    great_circle_bearing r = Fin q ->
    exists tenths : Z,
      bearing_from_schiphol r = Some (Fin (inject_Z tenths / 10))
      /\ (0 <= tenths <= 3600)%Z
      /\ In (identify_corridor (bearing_from_schiphol r))
            ["north"; "northeast"; "east"; "southeast"; "south"; "southwest";
             "west"]%string.
Proof.
  intros M r q Hlat Hlon Hraw.
  unfold bearing_from_schiphol. rewrite Hlat, Hlon, Hraw. cbn [orb].
  rewrite normalize_bearing_finite.
  destruct (wrap_range q) as [Hlo Hhi]. cbv zeta in Hlo, Hhi.
  set (m := q + 360 - _) in *.
  exists (round_half_even (m * 10)). split; [reflexivity|]. split.
  - split.
    + apply round_half_even_lower. change (inject_Z 0) with 0. lra.
    + apply round_half_even_upper. change (inject_Z 3600) with 3600. lra.
  - change (identify_corridor (Some ?b)) with (find_corridor approach_corridors b).
    apply find_corridor_named. reflexivity.
Qed.

Lemma X4_bearing_gets_a_corridor_witness :
  exists tenths : Z,
    bearing_from_schiphol (H := Sample.math)
      (Sample.flight (Fin 52.40) (Fin 4.90) (Fin 2500))
    = Some (Fin (inject_Z tenths / 10))
    /\ (0 <= tenths <= 3600)%Z
    /\ In (identify_corridor
             (bearing_from_schiphol (H := Sample.math)
                (Sample.flight (Fin 52.40) (Fin 4.90) (Fin 2500))))
          ["north"; "northeast"; "east"; "southeast"; "south"; "southwest";
           "west"]%string.
Proof.
  assert (R : exists q,
    great_circle_bearing (H := Sample.math)
      (Sample.flight (Fin 52.40) (Fin 4.90) (Fin 2500)) = Fin q).
  { eexists. vm_compute. reflexivity. }
  destruct R as [q Hq].
  exact (X4_bearing_gets_a_corridor Sample.math
           (Sample.flight (Fin 52.40) (Fin 4.90) (Fin 2500)) q
           eq_refl eq_refl Hq).
Defined.

(** ** The collector's pattern flags *)

Lemma high_impact_iff (n : pyfloat) :
  noise_impact_level n = "High Impact"%string <-> (n >=? Fin 65)%py = true.
Proof.
  unfold noise_impact_level.
  destruct (n >=? Fin 65)%py; [tauto|].
  destruct (n >=? Fin 55)%py; [split; discriminate|].
  destruct (n >=? Fin 45)%py; split; discriminate.
Qed.

(** X5: in [enhance_with_pattern_analysis] the flags agree with the
    analyzer's columns: the distance to the house is the analyzer's
    [distance_km]; [is_high_noise] holds exactly when the noise tier is
    High Impact; a high-noise row is a low-altitude row within 7.5 km of
    the house; and a row without coordinates is neither over the house
    nor high-noise. *)
Theorem X5_pattern_flags_consistent :
  forall (G : Geopy) (M : MathModule) (r : row)
         (e : TwoWeekFlightCollector.pattern_columns),
    TwoWeekFlightCollector.enhance_row r = Ok e ->
    TwoWeekFlightCollector.distance_to_house_km e
    = distance_km (TwoWeekFlightCollector.noise_cols e)
    /\ (TwoWeekFlightCollector.is_high_noise e = true
        <-> noise_impact (TwoWeekFlightCollector.noise_cols e)
            = "High Impact"%string)
    /\ (TwoWeekFlightCollector.is_high_noise e = true ->
        TwoWeekFlightCollector.is_low_altitude e = true
        /\ (TwoWeekFlightCollector.distance_to_house_km e <? Fin 7.5)%py = true)
    /\ (isna (latitude r) || isna (longitude r) = true ->
        TwoWeekFlightCollector.is_over_house e = false
        /\ TwoWeekFlightCollector.is_high_noise e = false).
Proof.
  intros G M r e.
  unfold TwoWeekFlightCollector.enhance_row, TwoWeekFlightCollector.calc_distance,
    noise_impact_row, calc_distance.
  change TwoWeekFlightCollector.house_coords with (Fin 52.395, Fin 4.915).
  destruct (isna (latitude r) || isna (longitude r)) eqn:U.
  - cbn [bind].
    destruct (schiphol_operations_row r) as [o|x]; cbn [bind]; [|discriminate].
    intros E. injection E as <-. cbn.
    rewrite estimate_noise_no_distance.
    repeat split; try discriminate; reflexivity.
  - destruct (geodesic_km (latitude r, longitude r) (Fin 52.395, Fin 4.915))
      as [d|x]; cbn [bind]; [|discriminate].
    destruct (schiphol_operations_row r) as [o|x]; cbn [bind]; [|discriminate].
    intros E. injection E as <-. cbn.
    split; [reflexivity|]. split; [symmetry; apply high_impact_iff|].
    split; [|discriminate].
    apply high_noise_low_and_close.
Qed.

Lemma X5_pattern_flags_consistent_witness :
  exists e : TwoWeekFlightCollector.pattern_columns,
    TwoWeekFlightCollector.enhance_row (H := Sample.geopy) (H0 := Sample.math)
      (Sample.flight (Fin 52.40) (Fin 4.91) (Fin 1500)) = Ok e
    /\ (TwoWeekFlightCollector.is_high_noise e = true
        <-> noise_impact (TwoWeekFlightCollector.noise_cols e)
            = "High Impact"%string).
Proof.
  assert (R : exists e,
    TwoWeekFlightCollector.enhance_row (H := Sample.geopy) (H0 := Sample.math)
      (Sample.flight (Fin 52.40) (Fin 4.91) (Fin 1500)) = Ok e).
  { eexists. vm_compute. reflexivity. }
  destruct R as [e He]. exists e. split; [exact He|].
  exact (proj1 (proj2 (X5_pattern_flags_consistent Sample.geopy Sample.math
                         _ e He))).
Defined.

(** ** Strings: case and surrounding whitespace *)

Section CaseAndSpace.

Lemma upper_char_idempotent (c : ascii) : upper_char (upper_char c) = upper_char c.
Proof. destruct c as [[] [] [] [] [] [] [] []]; reflexivity. Qed.

Lemma is_space_upper_char (c : ascii) : is_space (upper_char c) = is_space c.
Proof. destruct c as [[] [] [] [] [] [] [] []]; reflexivity. Qed.

Lemma upper_idempotent (s : string) : upper (upper s) = upper s.
Proof.
  induction s as [|c s IH]; simpl; [reflexivity|].
  now rewrite upper_char_idempotent, IH.
Qed.

Lemma truthy_upper (s : string) : truthy (upper s) = truthy s.
Proof. destruct s; reflexivity. Qed.

Lemma lstrip_upper (s : string) : lstrip (upper s) = upper (lstrip s).
Proof.
  induction s as [|c s IH]; simpl; [reflexivity|].
  rewrite is_space_upper_char. destruct (is_space c); [exact IH | reflexivity].
Qed.

Lemma rstrip_upper (s : string) : rstrip (upper s) = upper (rstrip s).
Proof.
  induction s as [|c s IH]; simpl; [reflexivity|].
  rewrite IH, is_space_upper_char.
  destruct (rstrip s); simpl; [destruct (is_space c)|]; reflexivity.
Qed.

Lemma strip_upper (s : string) : strip (upper s) = upper (strip s).
Proof. unfold strip. now rewrite lstrip_upper, rstrip_upper. Qed.

(** Stripping keeps a leading character that is not whitespace. *)
Lemma strip_keeps_head (c : ascii) (s : string) :
  is_space c = false -> exists rest, strip (String c s) = String c rest.
Proof.
  intros Hc. unfold strip. simpl. rewrite Hc. simpl.
  destruct (rstrip s); [rewrite Hc|]; eauto.
Qed.

Lemma startswith_char (c : ascii) (s : string) :
  startswith s (String c EmptyString) = true ->
  exists rest, s = String c rest.
Proof.
  intros H. apply startswith_cons_inv in H. destruct H as (rest & -> & _). eauto.
Qed.

Lemma startswith_head (c : ascii) (p rest : string) :
  startswith (String c rest) p
  = match p with
    | EmptyString => true
    | String a p' => if ascii_dec a c then startswith rest p' else false
    end.
Proof. destruct p; reflexivity. Qed.

End CaseAndSpace.

(** ** Cleaning the API response *)

Import OpenSkyFetcher.

(** X6: every row that [_clean_flight_data] keeps is the conversion of a
    state vector of the response, has both coordinates defined and not
    both zero, and carries the [aircraft_type] of its identifier; so the
    analyzer's guards for missing coordinates never fire on a cleaned
    frame: the bearing is never None and the distance is the one geopy
    computes.  No row is added. *)
Theorem X6_clean_rows_have_coordinates :
  forall (df : list state_vector),
    (length (_clean_flight_data df) <= length df)%nat
    /\ forall (r : row) (t : string),
         In (r, t) (_clean_flight_data df) ->
         (exists sv, In sv df /\ r = convert sv)
         /\ isna (latitude r) = false
         /\ isna (longitude r) = false
         /\ nonzero (longitude r) || nonzero (latitude r) = true
         /\ t = _classify_aircraft (icao24 r)
         /\ (forall M : MathModule, bearing_from_schiphol r <> None)
         /\ (forall (G : Geopy) (target_coords : coords),
                calc_distance target_coords r
                = geodesic_km (latitude r, longitude r) target_coords).
Proof.
  intros df. unfold _clean_flight_data. split.
  - rewrite length_map.
    eapply Nat.le_trans; [apply filter_length_le|].
    eapply Nat.le_trans; [apply filter_length_le|].
    rewrite length_map. apply Nat.le_refl.
  - intros r t Hin.
    apply in_map_iff in Hin. destruct Hin as (r' & E & Hin).
    injection E as -> <-.
    apply filter_In in Hin. destruct Hin as [Hin Hnz].
    apply filter_In in Hin. destruct Hin as [Hin Hna].
    apply in_map_iff in Hin. destruct Hin as (sv & <- & Hsv).
    apply andb_prop in Hna. destruct Hna as [Hlon Hlat].
    apply negb_true_iff in Hlon, Hlat.
    split; [eauto|]. repeat split; try assumption.
    + intros M. unfold bearing_from_schiphol. rewrite Hlat, Hlon. discriminate.
    + intros G target_coords. unfold calc_distance. rewrite Hlat, Hlon.
      reflexivity.
Qed.

Lemma X6_clean_rows_have_coordinates_witness :
  isna (latitude
          (convert {| sv_icao24 := "484506"; sv_callsign := Some "KLM123  "%string;
                      sv_longitude := JNum 4.9; sv_latitude := JNum 52.4;
                      sv_baro_altitude := JNull |})) = false.
Proof.
  refine (proj1 (proj2 (proj2 (X6_clean_rows_have_coordinates
    [ {| sv_icao24 := "484506"; sv_callsign := Some "KLM123  "%string;
         sv_longitude := JNum 4.9; sv_latitude := JNum 52.4;
         sv_baro_altitude := JNull |};
      {| sv_icao24 := "a1b2c3"; sv_callsign := None;
         sv_longitude := JNull; sv_latitude := JNum 52.4;
         sv_baro_altitude := JNum 900 |} ]) _ "Commercial"%string _))).
  left. reflexivity.
Defined.

(** X7: a callsign that, trimmed and in upper case, starts with N and has
    at most six characters makes the aircraft Private/General Aviation
    and likely private, whatever the identifier says; this is the fate
    of a short airline callsign such as NAX12, and of the text None,
    which is what [str(None)] writes for a missing callsign. *)
Theorem X7_short_N_callsign_is_private :
  forall icao24 callsign : string,
    truthy icao24 = true ->
    startswith (upper (strip callsign)) "N" = true ->
    (String.length (upper (strip callsign)) <= 6)%nat ->
    category (classify_aircraft_by_icao icao24 (Some callsign))
    = "Private/General Aviation"%string
    /\ likely_private (classify_aircraft_by_icao icao24 (Some callsign))
       = Some true.
Proof.
  intros icao24 callsign Hi Hn Hlen.
  assert (Hc : truthy callsign = true).
  { destruct callsign; [discriminate Hn | reflexivity]. }
  unfold classify_aircraft_by_icao. rewrite Hi, Hc. cbn [negb].
  assert (Hp : startswith_any (upper (strip callsign)) private_patterns = true).
  { unfold private_patterns. cbn [startswith_any existsb]. rewrite Hn.
    reflexivity. }
  rewrite Hp. apply Nat.leb_le in Hlen. rewrite Hlen. cbn [andb].
  split; reflexivity.
Qed.

Lemma X7_short_N_callsign_is_private_witness :
  category (classify_aircraft_by_icao "484506" (Some "None"%string))
  = "Private/General Aviation"%string
  /\ category (classify_aircraft_by_icao "484506" (Some " nax12 "%string))
     = "Private/General Aviation"%string.
Proof.
  split.
  - apply (X7_short_N_callsign_is_private "484506" "None");
      [reflexivity | reflexivity | vm_compute; lia].
  - apply (X7_short_N_callsign_is_private "484506" " nax12 ");
      [reflexivity | reflexivity | vm_compute; lia].
Defined.

(** ** The two identifier heuristics *)

Section IdentifierHeuristics.

Local Open Scope string_scope.

Lemma startswith_any_cons (s p : string) (ps : list string) :
  startswith_any s (p :: ps) = startswith s p || startswith_any s ps.
Proof. reflexivity. Qed.

(** The first character decides a test against one-character prefixes. *)
Lemma startswith_any_chars_strip (s : string) (ps : list string) :
  (forall p, In p ps ->
     exists c, p = String c EmptyString /\ is_space c = false) ->
  startswith_any s ps = true ->
  startswith_any (strip s) ps = true.
Proof.
  intros Hps H. unfold startswith_any in *.
  apply existsb_exists in H. destruct H as (p & Hin & Hp).
  apply existsb_exists. exists p. split; [exact Hin|].
  destruct (Hps p Hin) as (c & -> & Hc).
  apply startswith_char in Hp. destruct Hp as [rest ->].
  destruct (strip_keeps_head c rest Hc) as [rest' ->].
  unfold startswith. simpl.
  destruct (ascii_dec c c); [destruct rest'; reflexivity | congruence].
Qed.

Lemma startswith_N_strip (s : string) :
  startswith s "N" = true ->
  exists rest, strip s = String "N" rest.
Proof.
  intros H. apply startswith_char in H. destruct H as [rest ->].
  apply strip_keeps_head. reflexivity.
Qed.

End IdentifierHeuristics.

(** X8: [_classify_aircraft] answers one of four labels; the answer is
    Unknown exactly for the empty identifier; and it does not depend on
    the case of the identifier. *)
Theorem X8_fetcher_aircraft_type :
  forall icao24 : string,
    In (_classify_aircraft icao24)
       ["Unknown"; "Commercial"; "Private/General Aviation"; "Other"]%string
    /\ (_classify_aircraft icao24 = "Unknown"%string <-> icao24 = ""%string)
    /\ _classify_aircraft (upper icao24) = _classify_aircraft icao24.
Proof.
  intros icao24. unfold _classify_aircraft.
  rewrite truthy_upper, upper_idempotent.
  destruct icao24 as [|c s]; cbn [truthy negb].
  - split; [simpl; auto|]. split; [tauto | reflexivity].
  - set (u := upper (String c s)).
    destruct (startswith_any u _); [|destruct (startswith_any u _)];
      (split; [simpl; auto|]); (split; [|reflexivity]);
      split; discriminate.
Qed.

(** X9: where the fetcher's heuristic and the analyzer's (without
    callsign) look at the same prefixes they agree, and they differ on
    the prefix N: an identifier the fetcher calls Private/General
    Aviation is Private/Corporate for the analyzer; one the fetcher
    calls Commercial is Commercial for the analyzer too, unless it
    starts with N, which the analyzer leaves Unknown. *)
Theorem X9_heuristics_agree_up_to_N :
  forall icao24 : string,
    (_classify_aircraft icao24 = "Private/General Aviation"%string ->
     category (classify_aircraft_by_icao icao24 None) = "Private/Corporate"%string)
    /\ (_classify_aircraft icao24 = "Commercial"%string ->
        (startswith (upper icao24) "N" = false
         /\ category (classify_aircraft_by_icao icao24 None) = "Commercial"%string)
        \/ (startswith (upper icao24) "N" = true
            /\ category (classify_aircraft_by_icao icao24 None) = "Unknown"%string)).
Proof.
  intros icao24. unfold _classify_aircraft, classify_aircraft_by_icao.
  destruct (truthy icao24); cbn [negb]; [|split; discriminate].
  rewrite strip_upper.
  set (u := upper icao24).
  assert (Hfive : forall s, startswith_any s ["4"; "D"; "G"; "F"; "I"; "N"]%string
                  = startswith_any s ["4"; "D"; "G"; "F"; "I"]%string
                    || startswith s "N").
  { intros s. unfold startswith_any. simpl.
    destruct (startswith s "4"), (startswith s "D"), (startswith s "G"),
      (startswith s "F"), (startswith s "I"), (startswith s "N"); reflexivity. }
  rewrite Hfive. rewrite <- strip_upper. fold u.
  assert (Hkeep : forall ps,
             (forall p, In p ps ->
                exists c, p = String c EmptyString /\ is_space c = false) ->
             startswith_any u ps = true -> startswith_any (strip u) ps = true)
    by (intros ps; apply startswith_any_chars_strip).
  assert (P5 : forall p, In p ["4"; "D"; "G"; "F"; "I"]%string ->
               exists c, p = String c EmptyString /\ is_space c = false).
  { simpl. intros p [<-|[<-|[<-|[<-|[<-|[]]]]]]; eexists; split; reflexivity. }
  assert (P2 : forall p, In p ["A"; "C"]%string ->
               exists c, p = String c EmptyString /\ is_space c = false).
  { simpl. intros p [<-|[<-|[]]]; eexists; split; reflexivity. }
  destruct (startswith_any u ["4"; "D"; "G"; "F"; "I"]%string) eqn:E5.
  - rewrite (Hkeep _ P5 E5). cbn [orb]. split; [discriminate|].
    intros _.
    destruct (startswith u "N") eqn:EN.
    + (* both a five-prefix and N: impossible, one first character *)
      unfold startswith_any in E5. simpl in E5.
      apply startswith_char in EN. destruct EN as [rest EN].
      rewrite EN in E5. discriminate E5.
    + left. split; reflexivity.
  - cbn [orb].
    destruct (startswith u "N") eqn:EN.
    + split; [discriminate|]. intros _. right. split; [reflexivity|].
      destruct (startswith_N_strip u EN) as [rest ->]. reflexivity.
    + destruct (startswith_any u ["A"; "C"]%string) eqn:E2;
        [|split; discriminate].
      split; [|discriminate]. intros _.
      rewrite (Hkeep _ P2 E2).
      unfold startswith_any in E2. simpl in E2.
      destruct (startswith u "A") eqn:EA.
      * apply startswith_char in EA. destruct EA as [rest EA].
        destruct (strip_keeps_head "A" rest eq_refl) as [rest' Er].
        rewrite EA, Er. reflexivity.
      * destruct (startswith u "C") eqn:EC; [|discriminate E2].
        apply startswith_char in EC. destruct EC as [rest EC].
        destruct (strip_keeps_head "C" rest eq_refl) as [rest' Er].
        rewrite EC, Er. reflexivity.
Qed.

Lemma X9_heuristics_agree_up_to_N_witness :
  category (classify_aircraft_by_icao "a1b2c3" None) = "Private/Corporate"%string
  /\ ((startswith (upper "n123ab") "N" = false
       /\ category (classify_aircraft_by_icao "n123ab" None) = "Commercial"%string)
      \/ (startswith (upper "n123ab") "N" = true
          /\ category (classify_aircraft_by_icao "n123ab" None) = "Unknown"%string)).
Proof.
  split.
  - exact (proj1 (X9_heuristics_agree_up_to_N "a1b2c3") eq_refl).
  - exact (proj2 (X9_heuristics_agree_up_to_N "n123ab") eq_refl).
Defined.

(** X10: the analyzer's classification does not depend on the case of
    the identifier or of the callsign. *)
Theorem X10_classification_ignores_case :
  forall (icao24 : string) (callsign : option string),
    classify_aircraft_by_icao (upper icao24) callsign
    = classify_aircraft_by_icao icao24 callsign
    /\ classify_aircraft_by_icao icao24 (option_map upper callsign)
       = classify_aircraft_by_icao icao24 callsign.
Proof.
  intros icao24 callsign. unfold classify_aircraft_by_icao. split.
  - rewrite truthy_upper, upper_idempotent. reflexivity.
  - destruct callsign as [cs|]; cbn [option_map]; [|reflexivity].
    rewrite truthy_upper, strip_upper, upper_idempotent. reflexivity.
Qed.

(** ** Processed frames and counts *)

Section Frames.

Lemma apply_rows_Forall2 {A B : Type} (f : A -> result B) (df : list A)
  (out : list B) :
  apply_rows f df = Ok out -> Forall2 (fun a b => f a = Ok b) df out.
Proof.
  revert out. induction df as [|a df IH]; intros out; simpl.
  - intros E. injection E as <-. constructor.
  - destruct (f a) as [b|x] eqn:Ea; cbn [bind]; [|discriminate].
    destruct (apply_rows f df) as [bs|x]; cbn [bind]; [|discriminate].
    intros E. injection E as <-. constructor; [exact Ea | now apply IH].
Qed.

Lemma count_rows_cons {A : Type} (mask : A -> bool) (x : A) (l : list A) :
  count_rows mask (x :: l) = (Nat.b2n (mask x) + count_rows mask l)%nat.
Proof. unfold count_rows. simpl. destruct (mask x); reflexivity. Qed.

Lemma count_rows_map {A B : Type} (f : A -> B) (mask : B -> bool) (l : list A) :
  count_rows mask (map f l) = count_rows (fun a => mask (f a)) l.
Proof.
  induction l as [|a l IH]; [reflexivity|].
  cbn [map]. rewrite !count_rows_cons, IH. reflexivity.
Qed.

Lemma count_rows_le {A : Type} (p q : A -> bool) (l : list A) :
  (forall x, In x l -> p x = true -> q x = true) ->
  (count_rows p l <= count_rows q l)%nat.
Proof.
  induction l as [|a l IH]; intros H; [apply Nat.le_refl|].
  rewrite !count_rows_cons.
  assert (Hl : (count_rows p l <= count_rows q l)%nat)
    by (apply IH; intros x Hx; apply H; right; exact Hx).
  destruct (p a) eqn:Ep.
  - rewrite (H a (or_introl eq_refl) Ep). simpl. lia.
  - simpl. destruct (q a); simpl; lia.
Qed.

Lemma count_rows_length {A : Type} (p : A -> bool) (l : list A) :
  (count_rows p l <= length l)%nat.
Proof. apply filter_length_le. Qed.

(** What [process_row] puts in a record. *)
Lemma process_row_columns `{Geopy} `{MathModule} (target_coords : coords)
  (r : row) (c : classified_row) :
  process_row target_coords r = Ok c ->
  calc_distance target_coords r = Ok (distance_km (noise c))
  /\ estimated_noise_db (noise c)
     = estimate_noise (baro_altitude r) (distance_km (noise c))
  /\ noise_impact (noise c) = noise_impact_level (estimated_noise_db (noise c))
  /\ distance_to_schiphol r = Ok (distance_to_schiphol_km (operations c))
  /\ schiphol_operation (operations c)
     = classify_operation (distance_to_schiphol_km (operations c))
         (baro_altitude r)
  /\ approach_corridor (operations c)
     = identify_corridor (bearing_from_schiphol_deg (operations c)).
Proof.
  unfold process_row, noise_impact_row, schiphol_operations_row.
  destruct (calc_distance target_coords r) as [d|x]; cbn [bind]; [|discriminate].
  destruct (distance_to_schiphol r) as [ds|x]; cbn [bind]; [|discriminate].
  intros E. injection E as <-. cbn. repeat split.
Qed.

(** The phase tells on which side of 30 km the distance cell lies. *)
Lemma operation_within_30 (d altitude : pyfloat) :
  ((d <? Fin 30)%py = true
   /\ classify_operation d altitude <> "Transit (High)"%string
   /\ classify_operation d altitude <> "Unknown"%string)
  \/ ((d <? Fin 30)%py = false
      /\ (classify_operation d altitude = "Transit (High)"%string
          \/ classify_operation d altitude = "Unknown"%string)).
Proof.
  destruct d as [q| | |].
  - unfold classify_operation.
    change (Fin q =? infinity)%py with false. cbv iota.
    destruct (Fin q <? Fin 5)%py eqn:E5;
      [apply ltb_fin in E5 | apply ltb_fin_false in E5].
    { left. split; [apply ltb_fin; lra|].
      destruct (altitude <? Fin 1000)%py; split; discriminate. }
    destruct (Fin q <? Fin 15)%py eqn:E15;
      [apply ltb_fin in E15 | apply ltb_fin_false in E15].
    { left. split; [apply ltb_fin; lra|].
      destruct (altitude <? Fin 5000)%py; split; discriminate. }
    destruct (Fin q <? Fin 30)%py eqn:E30.
    { left. split; [reflexivity|].
      destruct (altitude <? Fin 10000)%py; split; discriminate. }
    right. split; [reflexivity | left; reflexivity].
  - right. split; [reflexivity | right; reflexivity].
  - left. split; [reflexivity|]. unfold classify_operation. simpl.
    destruct (altitude <? Fin 1000)%py; split; discriminate.
  - right. split; [reflexivity | left; reflexivity].
Qed.

End Frames.

(** ** The summary of analyze_residential_impact *)

Section Summary.

Import ResidentialImpact.

Context {G : Geopy} {M : MathModule}.

Lemma analyze_returns (flight_data : list row) (target_coords : coords)
  (a : analysis) :
  analyze_residential_impact flight_data target_coords = Ok (inr a) ->
  exists df,
    Forall2 (fun r c => process_row target_coords r = Ok c) flight_data df
    /\ a = summarize df.
Proof.
  unfold analyze_residential_impact.
  destruct flight_data as [|r rest]; [discriminate|].
  destruct (process_flight_data (r :: rest) target_coords) as [df|x] eqn:E;
    cbn [bind]; [|discriminate].
  intros Ea. injection Ea as <-.
  exists df. split; [|reflexivity].
  now apply apply_rows_Forall2.
Qed.

Lemma operations_partition (target_coords : coords) (flight_data : list row)
  (df : list classified_row) :
  Forall2 (fun r c => process_row target_coords r = Ok c) flight_data df ->
  (count_rows (fun c => (distance_to_schiphol_km (operations c) <? Fin 30)%py) df
   + count_rows (fun c => String.eqb "Transit (High)"
                            (schiphol_operation (operations c))) df
   + count_rows (fun c => String.eqb "Unknown"
                            (schiphol_operation (operations c))) df
   = length df)%nat.
Proof.
  induction 1 as [|r c rest df Hrc _ IH]; [reflexivity|].
  rewrite !count_rows_cons. cbn [length]. cbv beta.
  destruct (process_row_columns _ _ _ Hrc) as (_ & _ & _ & _ & Hop & _).
  rewrite Hop.
  destruct (operation_within_30 (distance_to_schiphol_km (operations c))
              (baro_altitude r)) as [(Hd & N1 & N2) | (Hd & [E|E])];
    rewrite Hd.
  - apply not_eq_sym, String.eqb_neq in N1, N2. rewrite N1, N2.
    cbn [Nat.b2n]. lia.
  - rewrite E.
    change (String.eqb "Transit (High)" "Transit (High)") with true.
    change (String.eqb "Unknown" "Transit (High)") with false.
    cbn [Nat.b2n]. lia.
  - rewrite E.
    change (String.eqb "Transit (High)" "Unknown") with false.
    change (String.eqb "Unknown" "Unknown") with true.
    cbn [Nat.b2n]. lia.
Qed.

Lemma high_impact_count (target_coords : coords) (flight_data : list row)
  (df : list classified_row) :
  Forall2 (fun r c => process_row target_coords r = Ok c) flight_data df ->
  count_rows (fun c => (estimated_noise_db (noise c) >=? Fin 65)%py) df
  = count_rows (fun c => String.eqb "High Impact" (noise_impact (noise c))) df.
Proof.
  induction 1 as [|r c rest df Hrc _ IH]; [reflexivity|].
  rewrite !count_rows_cons, IH. f_equal. f_equal. cbv beta.
  destruct (process_row_columns _ _ _ Hrc) as (_ & _ & Hn & _).
  rewrite Hn.
  destruct (estimated_noise_db (noise c) >=? Fin 65)%py eqn:E.
  - apply high_impact_iff in E. rewrite E. reflexivity.
  - symmetry. apply String.eqb_neq. intros Heq. symmetry in Heq.
    apply high_impact_iff in Heq. congruence.
Qed.

End Summary.

(** X11: in the operations section of the summary the count of likely
    Schiphol traffic (distance below 30 km) and the counts of the phases
    Transit (High) and Unknown add up to the number of flights: every
    flight is in exactly one of the three groups; and the number of
    flights is the number of input reports. *)
Theorem X11_operation_counts_add_up :
  forall (G : Geopy) (M : MathModule) (flight_data : list row)
         (target_coords : coords) (a : ResidentialImpact.analysis),
    ResidentialImpact.analyze_residential_impact flight_data target_coords
    = Ok (inr a) ->
    (ResidentialImpact.likely_schiphol_traffic (ResidentialImpact.operations_section a)
     + ResidentialImpact.operation_types (ResidentialImpact.operations_section a)
         "Transit (High)"
     + ResidentialImpact.operation_types (ResidentialImpact.operations_section a)
         "Unknown"
     = ResidentialImpact.total_flights a)%nat
    /\ ResidentialImpact.total_flights a = length flight_data.
Proof.
  intros G M flight_data target_coords a Ha.
  destruct (analyze_returns _ _ _ Ha) as (df & Hdf & ->).
  cbn. unfold value_counts, ResidentialImpact.column.
  rewrite !count_rows_map. split.
  - exact (operations_partition _ _ _ Hdf).
  - symmetry. exact (Forall2_length Hdf).
Qed.

Lemma X11_operation_counts_add_up_witness :
  exists a : ResidentialImpact.analysis,
    ResidentialImpact.analyze_residential_impact
      (H := Sample.geopy) (H0 := Sample.math)
      [ Sample.flight (Fin 52.40) (Fin 4.90) (Fin 2500);
        Sample.flight NaN (Fin 4.90) (Fin 900);
        Sample.flight (Fin 52.90) (Fin 4.78) NaN ]
      Sample.house_coords = Ok (inr a)
    /\ ResidentialImpact.total_flights a = 3%nat.
Proof.
  assert (R : exists a,
    ResidentialImpact.analyze_residential_impact
      (H := Sample.geopy) (H0 := Sample.math)
      [ Sample.flight (Fin 52.40) (Fin 4.90) (Fin 2500);
        Sample.flight NaN (Fin 4.90) (Fin 900);
        Sample.flight (Fin 52.90) (Fin 4.78) NaN ]
      Sample.house_coords = Ok (inr a)).
  { eexists. vm_compute. reflexivity. }
  destruct R as [a Ha]. exists a. split; [exact Ha|].
  exact (proj2 (X11_operation_counts_add_up Sample.geopy Sample.math _ _ a Ha)).
Defined.

(** X12: the number of high-impact flights reported in the noise section
    (estimate of 65 dB or more) is the count the impact distribution
    gives for the tier High Impact, and it never exceeds the number of
    flights. *)
Theorem X12_high_impact_matches_distribution :
  forall (G : Geopy) (M : MathModule) (flight_data : list row)
         (target_coords : coords) (a : ResidentialImpact.analysis),
    ResidentialImpact.analyze_residential_impact flight_data target_coords
    = Ok (inr a) ->
    ResidentialImpact.high_impact_flights (ResidentialImpact.noise_section a)
    = ResidentialImpact.impact_distribution (ResidentialImpact.noise_section a)
        "High Impact"
    /\ (ResidentialImpact.high_impact_flights (ResidentialImpact.noise_section a)
        <= ResidentialImpact.total_flights a)%nat.
Proof.
  intros G M flight_data target_coords a Ha.
  destruct (analyze_returns _ _ _ Ha) as (df & Hdf & ->).
  cbn. unfold value_counts, ResidentialImpact.column.
  rewrite count_rows_map. split.
  - exact (high_impact_count _ _ _ Hdf).
  - apply count_rows_length.
Qed.

Lemma X12_high_impact_matches_distribution_witness :
  exists a : ResidentialImpact.analysis,
    ResidentialImpact.analyze_residential_impact
      (H := Sample.geopy) (H0 := Sample.math)
      [ Sample.flight (Fin 52.40) (Fin 4.91) (Fin 1500);
        Sample.flight (Fin 52.40) (Fin 4.90) (Fin 9000) ]
      Sample.house_coords = Ok (inr a)
    /\ ResidentialImpact.high_impact_flights (ResidentialImpact.noise_section a)
       = ResidentialImpact.impact_distribution (ResidentialImpact.noise_section a)
           "High Impact".
Proof.
  assert (R : exists a,
    ResidentialImpact.analyze_residential_impact
      (H := Sample.geopy) (H0 := Sample.math)
      [ Sample.flight (Fin 52.40) (Fin 4.91) (Fin 1500);
        Sample.flight (Fin 52.40) (Fin 4.90) (Fin 9000) ]
      Sample.house_coords = Ok (inr a)).
  { eexists. vm_compute. reflexivity. }
  destruct R as [a Ha]. exists a. split; [exact Ha|].
  exact (proj1 (X12_high_impact_matches_distribution Sample.geopy Sample.math
                  _ _ a Ha)).
Defined.

(** ** Altitude bins and confirmed operations *)

Section AltitudeBins.

Lemma altitude_in_one_bin (a : pyfloat) :
  (Nat.b2n (a <? Fin 1000)%py
   + Nat.b2n ((a >=? Fin 1000)%py && (a <? Fin 5000)%py)
   + Nat.b2n ((a >=? Fin 5000)%py && (a <? Fin 10000)%py)
   + Nat.b2n (a >=? Fin 10000)%py
   = Nat.b2n (negb (isna a)))%nat.
Proof.
  destruct a as [q| | |]; try reflexivity.
  cbn [isna negb Nat.b2n].
  destruct (Fin q <? Fin 1000)%py eqn:E1;
    [apply ltb_fin in E1 | apply ltb_fin_false in E1];
  (destruct (Fin q >=? Fin 1000)%py eqn:E2;
    [apply geb_fin in E2 | apply geb_fin_false in E2]);
  (destruct (Fin q <? Fin 5000)%py eqn:E3;
    [apply ltb_fin in E3 | apply ltb_fin_false in E3]);
  (destruct (Fin q >=? Fin 5000)%py eqn:E4;
    [apply geb_fin in E4 | apply geb_fin_false in E4]);
  (destruct (Fin q <? Fin 10000)%py eqn:E5;
    [apply ltb_fin in E5 | apply ltb_fin_false in E5]);
  (destruct (Fin q >=? Fin 10000)%py eqn:E6;
    [apply geb_fin in E6 | apply geb_fin_false in E6]);
  try reflexivity; exfalso; lra.
Qed.

End AltitudeBins.

(** X13: the four altitude bins of [analyze_collected_data] are disjoint
    and cover exactly the reports with a defined altitude: their counts
    add up to the number of reports whose altitude is not NaN, so a
    report without altitude is in no bin; and the low-altitude count
    (below 3000 ft) lies between the first bin and the first two. *)
Theorem X13_altitude_bins_partition :
  forall flights_df : list row,
    (CorrectedAnalysis.bin_0_1000ft (CorrectedAnalysis.altitude_bins flights_df)
     + CorrectedAnalysis.bin_1000_5000ft (CorrectedAnalysis.altitude_bins flights_df)
     + CorrectedAnalysis.bin_5000_10000ft (CorrectedAnalysis.altitude_bins flights_df)
     + CorrectedAnalysis.bin_10000ft_plus (CorrectedAnalysis.altitude_bins flights_df)
     = count_rows (fun r => negb (isna (baro_altitude r))) flights_df)%nat
    /\ (CorrectedAnalysis.bin_0_1000ft (CorrectedAnalysis.altitude_bins flights_df)
        <= CorrectedAnalysis.low_altitude_flights flights_df)%nat
    /\ (CorrectedAnalysis.low_altitude_flights flights_df
        <= CorrectedAnalysis.bin_0_1000ft (CorrectedAnalysis.altitude_bins flights_df)
           + CorrectedAnalysis.bin_1000_5000ft
               (CorrectedAnalysis.altitude_bins flights_df))%nat.
Proof.
  intros flights_df. cbn. unfold CorrectedAnalysis.low_altitude_flights.
  induction flights_df as [|r l IH]; [repeat split; apply Nat.le_refl|].
  rewrite !count_rows_cons. cbv beta.
  pose proof (altitude_in_one_bin (baro_altitude r)) as Hbin.
  assert (Hlow :
    (Nat.b2n (baro_altitude r <? Fin 1000)%py
     <= Nat.b2n (baro_altitude r <? Fin 3000)%py
     <= Nat.b2n (baro_altitude r <? Fin 1000)%py
        + Nat.b2n ((baro_altitude r >=? Fin 1000)%py
                   && (baro_altitude r <? Fin 5000)%py))%nat).
  { destruct (baro_altitude r) as [q| | |]; try (simpl; lia).
    destruct (Fin q <? Fin 1000)%py eqn:E1;
      [apply ltb_fin in E1 | apply ltb_fin_false in E1];
    (destruct (Fin q <? Fin 3000)%py eqn:E2;
      [apply ltb_fin in E2 | apply ltb_fin_false in E2]);
    (destruct (Fin q >=? Fin 1000)%py eqn:E3;
      [apply geb_fin in E3 | apply geb_fin_false in E3]);
    (destruct (Fin q <? Fin 5000)%py eqn:E4;
      [apply ltb_fin in E4 | apply ltb_fin_false in E4]);
    simpl; try lia; exfalso; lra. }
  destruct IH as (IH1 & IH2 & IH3). repeat split; lia.
Qed.

Section ConfirmedOperations.

Lemma confirmed_within_30 (d altitude : pyfloat) :
  isin ["Landing/Takeoff"; "Approach/Departure"; "Extended Approach"]%string
    (classify_operation d altitude) = true ->
  (d <? Fin 30)%py = true /\ (altitude <? Fin 10000)%py = true.
Proof.
  intros H.
  destruct (operation_within_30 d altitude) as [(Hd & _ & _) | (_ & [E|E])];
    [|rewrite E in H; discriminate H ..].
  split; [exact Hd|].
  unfold classify_operation in H.
  destruct (d =? infinity)%py; [discriminate H|].
  destruct altitude as [a| | |];
    try (destruct (d <? Fin 5)%py, (d <? Fin 15)%py, (d <? Fin 30)%py;
         simpl in H; solve [discriminate H | reflexivity]).
  destruct (Fin a <? Fin 10000)%py eqn:E; [reflexivity|].
  apply ltb_fin_false in E.
  rewrite (proj2 (ltb_fin_false a 1000)) in H by lra.
  rewrite (proj2 (ltb_fin_false a 5000)) in H by lra.
  destruct (d <? Fin 5)%py, (d <? Fin 15)%py, (d <? Fin 30)%py;
    discriminate H.
Qed.

End ConfirmedOperations.

(** X14: on a frame processed by [identify_schiphol_operations], every
    operation counted as confirmed (Landing/Takeoff, Approach/Departure
    or Extended Approach) lies within 30 km of Schiphol, so the
    confirmed count never exceeds the number of rows within 30 km, nor
    the number of reports; a frame on which a report raises gives no
    count at all. *)
Theorem X14_confirmed_operations_within_30km :
  forall (G : Geopy) (M : MathModule) (flights_df : list row)
         (processed : list operation_columns),
    identify_schiphol_operations flights_df = Ok processed ->
    (CorrectedAnalysis.confirmed_schiphol_ops processed
     <= count_rows (fun o => (distance_to_schiphol_km o <? Fin 30)%py) processed)%nat
    /\ (CorrectedAnalysis.confirmed_schiphol_ops processed <= length flights_df)%nat
    /\ length processed = length flights_df.
Proof.
  intros G M flights_df processed Hp.
  apply apply_rows_Forall2 in Hp.
  assert (Hlen : length processed = length flights_df)
    by (symmetry; exact (Forall2_length Hp)).
  assert (Hrow : forall o, In o processed ->
            exists altitude,
              schiphol_operation o
              = classify_operation (distance_to_schiphol_km o) altitude).
  { clear Hlen. induction Hp as [|r o rest os Hro _ IH]; [intros o []|].
    intros o' [<-|Hin]; [|now apply IH].
    exists (baro_altitude r).
    unfold schiphol_operations_row in Hro.
    destruct (distance_to_schiphol r) as [d|x]; cbn [bind] in Hro;
      [|discriminate Hro].
    injection Hro as <-. reflexivity. }
  split; [|split; [|exact Hlen]].
  - apply count_rows_le. intros o Hin Hc.
    destruct (Hrow o Hin) as [altitude Ho]. rewrite Ho in Hc.
    exact (proj1 (confirmed_within_30 _ _ Hc)).
  - rewrite <- Hlen. apply count_rows_length.
Qed.

Lemma X14_confirmed_operations_within_30km_witness :
  exists processed : list operation_columns,
    identify_schiphol_operations (H := Sample.geopy) (H0 := Sample.math)
      [ Sample.flight (Fin 52.32) (Fin 4.77) (Fin 600);
        Sample.flight (Fin 52.90) (Fin 4.78) (Fin 900) ] = Ok processed
    /\ length processed = 2%nat.
Proof.
  assert (R : exists processed,
    identify_schiphol_operations (H := Sample.geopy) (H0 := Sample.math)
      [ Sample.flight (Fin 52.32) (Fin 4.77) (Fin 600);
        Sample.flight (Fin 52.90) (Fin 4.78) (Fin 900) ] = Ok processed).
  { eexists. vm_compute. reflexivity. }
  destruct R as [processed Hp]. exists processed. split; [exact Hp|].
  exact (proj2 (proj2 (X14_confirmed_operations_within_30km
                         Sample.geopy Sample.math _ processed Hp))).
Defined.

(** ** Collection schedule *)

(** X15: for every hour of the day (0 to 23) the time period is one of
    five labels, night exactly for the hours 22, 23 and 0 to 4; the
    collection interval is the night interval (10 minutes) exactly for
    the hours 0 to 5 and the peak interval (3 minutes) otherwise: the
    hours 22 and 23 are labelled night but polled at the peak interval,
    and hour 5 is labelled early morning but polled at the night
    interval. *)
Theorem X15_periods_and_intervals :
  forall hour : Z,
    (0 <= hour <= 23)%Z ->
    In (TwoWeekFlightCollector.time_period hour)
       ["early_morning"; "morning"; "afternoon"; "evening"; "night"]%string
    /\ (TwoWeekFlightCollector.time_period hour = "night"%string
        <-> (hour < 5 \/ 22 <= hour)%Z)
    /\ (TwoWeekFlightCollector.get_collection_interval hour
        = TwoWeekFlightCollector.night_interval_minutes <-> (hour <= 5)%Z)
    /\ (TwoWeekFlightCollector.get_collection_interval hour
        = TwoWeekFlightCollector.peak_interval_minutes <-> (6 <= hour)%Z)
    /\ (TwoWeekFlightCollector.time_period hour = "night"%string ->
        (22 <= hour)%Z ->
        TwoWeekFlightCollector.get_collection_interval hour
        = TwoWeekFlightCollector.peak_interval_minutes).
Proof.
  intros hour Hh.
  assert (Hcases : In hour (map Z.of_nat (seq 0 24))).
  { apply in_map_iff. exists (Z.to_nat hour). split; [lia|].
    apply in_seq. lia. }
  simpl in Hcases.
  repeat (destruct Hcases as [<-|Hcases];
          [ cbv [TwoWeekFlightCollector.time_period
                 TwoWeekFlightCollector.get_collection_interval
                 TwoWeekFlightCollector.is_peak_hours
                 TwoWeekFlightCollector.peak_interval_minutes
                 TwoWeekFlightCollector.night_interval_minutes
                 Z.leb Z.ltb Z.compare Pos.compare Pos.compare_cont andb];
            repeat split; intros;
            first [reflexivity | discriminate | lia | (simpl; auto 10)]
          | ]).
  contradiction.
Qed.

Lemma X15_periods_and_intervals_witness :
  TwoWeekFlightCollector.get_collection_interval 23
  = TwoWeekFlightCollector.peak_interval_minutes.
Proof.
  apply (proj2 (proj2 (proj2 (proj2
           (X15_periods_and_intervals 23 ltac:(lia)))))).
  - reflexivity.
  - lia.
Defined.

(** ** Average and maximum noise *)

Section NoiseStatistics.

Lemma estimate_noise_pinf (d : Q) :
  estimate_noise PInf (Fin d)
  = Fin (NoiseSpec.round1 (Qmax (80 - 40 - Qmin (Qmax d 0.1 * 2) 20) 30)).
Proof.
  unfold estimate_noise. cbv zeta.
  change (isna PInf || (Fin d =? infinity)%py) with false. cbv iota.
  change (pymin (pymax PInf (Fin 100) / Fin 1000 * Fin 5)%py (Fin 40))
    with (Fin 40).
  rewrite pymax_fin.
  change (Fin (Qmax d 0.1) * Fin 2)%py with (Fin (Qmax d 0.1 * 2)).
  rewrite pymin_fin.
  change (Fin 80 - Fin 40 - Fin ?y)%py with (Fin (80 - 40 - y)).
  rewrite pymax_fin. apply pyround_1.
Qed.

Lemma round1_between (lo hi : Z) (v : Q) :
  inject_Z lo / 10 <= v -> v <= inject_Z hi / 10 ->
  inject_Z lo / 10 <= NoiseSpec.round1 v <= inject_Z hi / 10.
Proof. intros; split; [now apply round1_lower | now apply round1_upper]. Qed.

(** Whatever the altitude cell, with a finite distance or the sentinel
    the estimate is a number between 0 and 79.3. *)
Lemma estimate_noise_range (altitude distance : pyfloat) :
  (exists d, distance = Fin d) \/ distance = infinity ->
  exists n : Q, estimate_noise altitude distance = Fin n /\ 0 <= n <= 79.3.
Proof.
  intros [[d ->] | ->].
  - destruct altitude as [a| | |].
    + rewrite estimate_noise_clamped.
      destruct (noise_db_bounds a d) as [Hlo Hhi].
      set (v := NoiseSpec.noise_db _ _ _) in *.
      eexists; split; [reflexivity|].
      destruct (round1_between 300 793 v) as [L U];
        change (inject_Z 300) with 300 in *;
        change (inject_Z 793) with 793 in *; try qlra.
    + rewrite estimate_noise_pinf.
      set (v := Qmax _ 30).
      assert (Hv : 30 <= v <= 40).
      { subst v. split; [apply Q.le_max_r|]. apply Q.max_lub; [|lra].
        destruct (Q.min_spec (Qmax d 0.1 * 2) 20) as [[? Ed]|[? Ed]];
          rewrite Ed; pose proof (Q.le_max_r d 0.1); lra. }
      eexists; split; [reflexivity|].
      destruct (round1_between 300 400 v) as [L U];
        change (inject_Z 300) with 300 in *;
        change (inject_Z 400) with 400 in *; try qlra.
    + assert (E : estimate_noise NInf (Fin d) = estimate_noise (Fin 100) (Fin d)).
      { unfold estimate_noise. cbv zeta.
        change (isna NInf || (Fin d =? infinity)%py) with false.
        change (isna (Fin 100) || (Fin d =? infinity)%py) with false.
        reflexivity. }
      rewrite E, estimate_noise_clamped.
      destruct (noise_db_bounds 100 d) as [Hlo Hhi].
      set (v := NoiseSpec.noise_db _ _ _) in *.
      eexists; split; [reflexivity|].
      destruct (round1_between 300 793 v) as [L U];
        change (inject_Z 300) with 300 in *;
        change (inject_Z 793) with 793 in *; try qlra.
    + exists 0. split; [reflexivity | lra].
  - rewrite estimate_noise_no_distance. exists 0. split; [reflexivity | lra].
Qed.

(** Sums and maxima of finite columns. *)
Lemma dropna_finite (qs : list Q) : dropna (map Fin qs) = map Fin qs.
Proof.
  unfold dropna. induction qs as [|q qs IH]; simpl; [reflexivity|].
  now rewrite IH.
Qed.

Lemma fold_add_finite (qs : list Q) (a : Q) :
  fold_left add (map Fin qs) (Fin a) = Fin (fold_left Qplus qs a).
Proof. revert a. induction qs as [|q qs IH]; intros a; simpl; [reflexivity|]. apply IH. Qed.

Lemma fold_max_finite (qs : list Q) (x : Q) :
  fold_left pymax (map Fin qs) (Fin x) = Fin (fold_left Qmax qs x).
Proof.
  revert x. induction qs as [|q qs IH]; intros x; simpl; [reflexivity|].
  rewrite pymax_fin. apply IH.
Qed.

Lemma fold_max_ge_init (qs : list Q) (x : Q) : x <= fold_left Qmax qs x.
Proof.
  revert x. induction qs as [|q qs IH]; intros x; simpl; [lra|].
  eapply Qle_trans; [apply (Q.le_max_l x q) | apply IH].
Qed.

Lemma fold_max_ge (qs : list Q) (x : Q) :
  Forall (fun q => q <= fold_left Qmax qs x) qs.
Proof.
  revert x. induction qs as [|q qs IH]; intros x; simpl; constructor.
  - eapply Qle_trans; [apply (Q.le_max_r x q) | apply fold_max_ge_init].
  - apply IH.
Qed.

Lemma fold_max_le (qs : list Q) (x hi : Q) :
  x <= hi -> Forall (fun q => q <= hi) qs -> fold_left Qmax qs x <= hi.
Proof.
  revert x. induction qs as [|q qs IH]; intros x Hx Hall; simpl; [exact Hx|].
  inversion Hall as [|? ? Hq Hqs]; subst.
  apply IH; [apply Q.max_lub; assumption | exact Hqs].
Qed.

Lemma fold_sum_bounds (qs : list Q) (a lo hi : Q) :
  Forall (fun q => lo <= q <= hi) qs ->
  a + inject_Z (Z.of_nat (length qs)) * lo <= fold_left Qplus qs a
  /\ fold_left Qplus qs a <= a + inject_Z (Z.of_nat (length qs)) * hi.
Proof.
  revert a. induction qs as [|q qs IH]; intros a Hall.
  - simpl. change (inject_Z 0) with 0. lra.
  - inversion Hall as [|? ? [Hlo Hhi] Hqs]; subst.
    destruct (IH (a + q) Hqs) as [L U].
    cbn [fold_left length].
    rewrite Nat2Z.inj_succ, <- Z.add_1_r, inject_Z_plus.
    change (inject_Z 1) with 1.
    set (n := inject_Z (Z.of_nat (length qs))) in *.
    split; lra.
Qed.

End NoiseStatistics.

Section NoiseColumn.

Context {G : Geopy} {M : MathModule}.

Variable target_coords : coords.
Hypothesis target_valid : valid_coords target_coords.

Lemma calc_distance_well_formed (r : row) (d : pyfloat) :
  well_formed r ->
  calc_distance target_coords r = Ok d ->
  (exists q, d = Fin q) \/ d = infinity.
Proof.
  intros [U | V]; unfold calc_distance.
  - rewrite U. intros E. injection E as <-. right. reflexivity.
  - destruct (geodesic_km_valid _ _ V target_valid) as (q & Hq & _).
    destruct (latitude r) as [lat| | |]; try contradiction.
    destruct (longitude r) as [lon| | |]; try contradiction.
    cbn [isna orb]. rewrite Hq. intros E. injection E as <-. left. eauto.
Qed.

Lemma noise_column_finite (flight_data : list row) (df : list classified_row) :
  Forall well_formed flight_data ->
  Forall2 (fun r c => process_row target_coords r = Ok c) flight_data df ->
  exists qs : list Q,
    map (fun c => estimated_noise_db (noise c)) df = map Fin qs
    /\ Forall (fun q => 0 <= q <= 79.3) qs.
Proof.
  intros Hwf Hdf. induction Hdf as [|r c rest df Hrc _ IH].
  - exists []. split; [reflexivity | constructor].
  - inversion Hwf as [|? ? Hr Hrest]; subst.
    destruct (IH Hrest) as (qs & Hqs & Hall).
    destruct (process_row_columns _ _ _ Hrc) as (Hd & Hn & _).
    destruct (estimate_noise_range (baro_altitude r) (distance_km (noise c))
                (calc_distance_well_formed r _ Hr Hd)) as (n & En & Hrange).
    exists (n :: qs). split.
    + cbn [map]. rewrite Hqs, Hn, En. reflexivity.
    + constructor; assumption.
Qed.

End NoiseColumn.

(** X17: for a valid target and a non-empty frame of reports with
    undefined or in-range coordinates, the noise section reports a
    finite average and a finite maximum, both rounded to tenths, with
    0 <= average <= maximum <= 79.3; the placeholder estimates of 0 are
    part of the average. *)
Theorem X17_noise_statistics_bounded :
  forall (G : Geopy) (M : MathModule) (flight_data : list row)
         (target_coords : coords) (a : ResidentialImpact.analysis),
    valid_coords target_coords ->
    Forall well_formed flight_data ->
    ResidentialImpact.analyze_residential_impact flight_data target_coords
    = Ok (inr a) ->
    exists average maximum : Q,
      ResidentialImpact.average_noise_level (ResidentialImpact.noise_section a)
      = Fin (NoiseSpec.round1 average)
      /\ ResidentialImpact.max_noise_level (ResidentialImpact.noise_section a)
         = Fin (NoiseSpec.round1 maximum)
      /\ 0 <= NoiseSpec.round1 average
      /\ NoiseSpec.round1 average <= NoiseSpec.round1 maximum
      /\ NoiseSpec.round1 maximum <= 79.3.
Proof.
  intros G M flight_data target_coords a Hv Hwf Ha.
  destruct (analyze_returns _ _ _ Ha) as (df & Hdf & ->).
  destruct (noise_column_finite target_coords Hv flight_data df Hwf Hdf)
    as (qs & Hqs & Hall).
  assert (Hne : qs <> []).
  { intros ->. destruct df as [|c df]; [|discriminate Hqs].
    inversion Hdf; subst. unfold ResidentialImpact.analyze_residential_impact in Ha.
    discriminate Ha. }
  destruct qs as [|q qs]; [congruence|]. clear Hne.
  cbn [ResidentialImpact.summarize ResidentialImpact.noise_section
       ResidentialImpact.average_noise_level ResidentialImpact.max_noise_level].
  unfold ResidentialImpact.column. rewrite Hqs.
  unfold series_mean, series_max, series_sum. rewrite dropna_finite.
  cbn [map]. rewrite <- (map_cons Fin q qs), fold_add_finite.
  cbn [map]. rewrite fold_max_finite.
  set (n := inject_Z (Z.of_nat (length (Fin q :: map Fin qs)))).
  assert (Hn : n == inject_Z (Z.of_nat (length (q :: qs))))
    by (subst n; cbn [length]; rewrite length_map; reflexivity).
  assert (Hpos : 0 < n).
  { rewrite Hn. cbn [length]. rewrite Nat2Z.inj_succ, <- Z.add_1_r.
    change 0 with (inject_Z 0). rewrite <- Zlt_Qlt. lia. }
  rewrite div_fin by lra.
  set (total := fold_left Qplus (q :: qs) 0).
  set (top := fold_left Qmax qs q).
  exists (total / n), top.
  split; [reflexivity|]. split; [reflexivity|].
  inversion Hall as [|? ? Hq Hqs']; subst.
  assert (Htop_hi : top <= 79.3).
  { subst top. apply fold_max_le; [lra|].
    eapply Forall_impl; [|exact Hqs']. intros x Hx. cbv beta in Hx. lra. }
  assert (Hall_top : Forall (fun x => 0 <= x <= top) (q :: qs)).
  { constructor.
    - split; [lra | apply fold_max_ge_init].
    - pose proof (fold_max_ge qs q) as Hge.
      rewrite Forall_forall in Hge, Hqs' |- *.
      intros x Hx. split; [exact (proj1 (Hqs' x Hx)) | exact (Hge x Hx)]. }
  destruct (fold_sum_bounds (q :: qs) 0 0 top Hall_top) as [Hlo Hhi].
  fold total in Hlo, Hhi. rewrite <- Hn in Hlo, Hhi.
  assert (Havg_lo : 0 <= total / n).
  { apply Qle_shift_div_l; [exact Hpos | lra]. }
  assert (Havg_hi : total / n <= top).
  { apply Qle_shift_div_r; [exact Hpos | lra]. }
  split; [|split].
  - apply Qle_trans with (inject_Z 0 / 10);
      [change (inject_Z 0) with 0; qlra|].
    apply round1_lower. change (inject_Z 0) with 0.
    apply Qle_trans with 0; [qlra | exact Havg_lo].
  - apply round1_mono. exact Havg_hi.
  - apply Qle_trans with (inject_Z 793 / 10);
      [|change (inject_Z 793) with 793; qlra].
    apply round1_upper. change (inject_Z 793) with 793.
    apply Qle_trans with 79.3; [exact Htop_hi | qlra].
Qed.

Lemma X17_noise_statistics_bounded_witness :
  exists (a : ResidentialImpact.analysis) (average maximum : Q),
    ResidentialImpact.analyze_residential_impact
      (H := Sample.geopy) (H0 := Sample.math)
      [ Sample.flight (Fin 52.40) (Fin 4.91) (Fin 1500);
        Sample.flight NaN (Fin 4.90) (Fin 900);
        Sample.flight (Fin 52.40) (Fin 4.90) NaN ]
      Sample.house_coords = Ok (inr a)
    /\ ResidentialImpact.average_noise_level (ResidentialImpact.noise_section a)
       = Fin (NoiseSpec.round1 average)
    /\ ResidentialImpact.max_noise_level (ResidentialImpact.noise_section a)
       = Fin (NoiseSpec.round1 maximum)
    /\ 0 <= NoiseSpec.round1 average
    /\ NoiseSpec.round1 average <= NoiseSpec.round1 maximum
    /\ NoiseSpec.round1 maximum <= 79.3.
Proof.
  assert (R : exists a,
    ResidentialImpact.analyze_residential_impact
      (H := Sample.geopy) (H0 := Sample.math)
      [ Sample.flight (Fin 52.40) (Fin 4.91) (Fin 1500);
        Sample.flight NaN (Fin 4.90) (Fin 900);
        Sample.flight (Fin 52.40) (Fin 4.90) NaN ]
      Sample.house_coords = Ok (inr a)).
  { eexists. vm_compute. reflexivity. }
  destruct R as [a Ha]. exists a.
  assert (Hw : Forall well_formed
            [ Sample.flight (Fin 52.40) (Fin 4.91) (Fin 1500);
              Sample.flight NaN (Fin 4.90) (Fin 900);
              Sample.flight (Fin 52.40) (Fin 4.90) NaN ]).
  { apply Forall_cons; [right; reflexivity|].
    apply Forall_cons; [left; reflexivity|].
    apply Forall_cons; [right; reflexivity|].
    apply Forall_nil. }
  destruct (X17_noise_statistics_bounded Sample.geopy Sample.math _
              Sample.house_coords a eq_refl Hw Ha)
    as (average & maximum & H1 & H2 & H3 & H4 & H5).
  exists average, maximum. repeat split; assumption.
Defined.

(** ** Cache file names *)

Section CacheNames.

Import FlightCache.

Local Open Scope string_scope.

(** The character does not occur in the string. *)
Local Abbreviation free c s := (~ In c (list_ascii_of_string s)).

Lemma free_cons (c a : ascii) (s : string) :
  free c (String a s) <-> a <> c /\ free c s.
Proof. simpl. tauto. Qed.

Lemma split_nonempty (sep : ascii) (s : string) : split sep s <> [].
Proof.
  induction s as [|c s IH]; simpl; [discriminate|].
  destruct (split sep s); [discriminate|].
  destruct (Ascii.eqb c sep); discriminate.
Qed.

Lemma split_free (sep : ascii) (s : string) : free sep s -> split sep s = [s].
Proof.
  induction s as [|c s IH]; intros H; [reflexivity|].
  apply free_cons in H. destruct H as [Hc Hs].
  simpl. rewrite (IH Hs). apply Ascii.eqb_neq in Hc. rewrite Hc. reflexivity.
Qed.

Lemma split_app_sep (sep : ascii) (s t : string) :
  free sep t -> split sep (s ++ String sep t) = (split sep s ++ [t])%list.
Proof.
  intros Ht. induction s as [|c s IH]; simpl.
  - rewrite (split_free sep t Ht), Ascii.eqb_refl. reflexivity.
  - rewrite IH. pose proof (split_nonempty sep s) as Hne.
    destruct (split sep s) as [|part parts]; [congruence|].
    simpl. destruct (Ascii.eqb c sep); reflexivity.
Qed.

Lemma split_with_sep (sep : ascii) (s : string) :
  In sep (list_ascii_of_string s) -> (2 <= length (split sep s))%nat.
Proof.
  induction s as [|c s IH]; simpl; [contradiction|].
  intros [->|Hin].
  - pose proof (split_nonempty sep s) as Hne.
    destruct (split sep s); [congruence|].
    rewrite Ascii.eqb_refl. simpl. lia.
  - specialize (IH Hin).
    destruct (split sep s) as [|part parts]; [simpl in IH; lia|].
    destruct (Ascii.eqb c sep); simpl in *; lia.
Qed.

Lemma rfind_app (c : ascii) (base suffix : string) :
  free c suffix ->
  rfind c (base ++ String c suffix) = Some (String.length base).
Proof.
  intros Hs.
  assert (Hfree : rfind c suffix = None).
  { clear base. induction suffix as [|a s IH]; [reflexivity|].
    apply free_cons in Hs. destruct Hs as [Ha Hs].
    simpl. rewrite (IH Hs). apply Ascii.eqb_neq in Ha. rewrite Ha. reflexivity. }
  induction base as [|a base IH]; simpl.
  - rewrite Hfree, Ascii.eqb_refl. reflexivity.
  - rewrite IH. reflexivity.
Qed.

Lemma substring_prefix (base rest : string) :
  substring 0 (String.length base) (base ++ rest) = base.
Proof.
  induction base as [|a base IH]; simpl.
  - destruct rest; reflexivity.
  - rewrite IH. reflexivity.
Qed.

Lemma length_append (s t : string) :
  String.length (s ++ t) = (String.length s + String.length t)%nat.
Proof. induction s as [|a s IH]; simpl; [reflexivity | now rewrite IH]. Qed.

Lemma append_assoc (s t u : string) : (s ++ t) ++ u = s ++ (t ++ u).
Proof. induction s as [|a s IH]; simpl; [reflexivity | now rewrite IH]. Qed.

Lemma stem_parquet (base : string) :
  base <> "" -> stem (base ++ ".parquet") = base.
Proof.
  intros Hne. unfold stem.
  change (base ++ ".parquet") with (base ++ String "." "parquet").
  rewrite rfind_app.
  - rewrite length_append.
    assert (Hlen : (0 < String.length base)%nat)
      by (destruct base; [congruence | simpl; lia]).
    replace (0 <? String.length base)%nat with true
      by (symmetry; apply Nat.ltb_lt; exact Hlen).
    replace (String.length base
             <? String.length base + String.length (String "." "parquet") - 1)%nat
      with true by (symmetry; apply Nat.ltb_lt; simpl; lia).
    cbn [andb]. apply substring_prefix.
  - simpl. intros H.
    repeat (destruct H as [H|H]; [discriminate H|]). exact H.
Qed.

Lemma timestamp_str_two_parts (prefix day time : string) :
  free "_"%char day -> free "_"%char time ->
  timestamp_str (prefix ++ "_" ++ day ++ "_" ++ time) = Some (day ++ "_" ++ time).
Proof.
  intros Hd Ht. unfold timestamp_str, from_end. cbv zeta.
  change (prefix ++ "_" ++ day ++ "_" ++ time)
    with (prefix ++ String "_" (day ++ String "_" time)).
  replace (prefix ++ String "_" (day ++ String "_" time))
    with ((prefix ++ String "_" day) ++ String "_" time)
    by (rewrite append_assoc; reflexivity).
  rewrite (split_app_sep "_" _ time Ht), (split_app_sep "_" prefix day Hd).
  rewrite !rev_app_distr. reflexivity.
Qed.

End CacheNames.

(** X18: the timestamp survives the file name: for every data type
    (underscores and dots allowed) and every timestamp made of a day
    part and a time part without underscore (as strftime with
    %Y%m%d_%H%M%S produces), the text that [load_opensky_data] and
    [get_cache_stats] extract from the stem of the name written by
    [save_opensky_data] is that timestamp. *)
Theorem X18_timestamp_survives_file_name :
  forall data_type day time : string,
    ~ In "_"%char (list_ascii_of_string day) ->
    ~ In "_"%char (list_ascii_of_string time) ->
    FlightCache.timestamp_str
      (FlightCache.stem
         (FlightCache.filename data_type (day ++ "_" ++ time)))
    = Some (day ++ "_" ++ time)%string.
Proof.
  intros data_type day time Hd Ht.
  unfold FlightCache.filename.
  replace ("opensky_" ++ data_type ++ "_" ++ (day ++ "_" ++ time) ++ ".parquet")%string
    with (("opensky_" ++ data_type ++ "_" ++ day ++ "_" ++ time) ++ ".parquet")%string.
  - rewrite stem_parquet by discriminate.
    change ("opensky_" ++ data_type ++ "_" ++ day ++ "_" ++ time)%string
      with (("opensky_" ++ data_type) ++ "_" ++ day ++ "_" ++ time)%string.
    apply timestamp_str_two_parts; assumption.
  - rewrite !append_assoc. reflexivity.
Qed.

Lemma X18_timestamp_survives_file_name_witness :
  FlightCache.timestamp_str
    (FlightCache.stem
       (FlightCache.filename "current_v2.1" ("20240131" ++ "_" ++ "235959")))
  = Some ("20240131" ++ "_" ++ "235959")%string.
Proof.
  apply (X18_timestamp_survives_file_name "current_v2.1" "20240131" "235959").
  - simpl. intros H. repeat (destruct H as [H|H]; [discriminate H|]). exact H.
  - simpl. intros H. repeat (destruct H as [H|H]; [discriminate H|]). exact H.
Defined.

(** X19: a cache file is skipped for its name exactly when the stem has
    no underscore: the indexing of the split stem raises IndexError (no
    timestamp text is produced) if and only if the stem contains no
    underscore. *)
Theorem X19_stem_without_underscore_is_skipped :
  forall file_stem : string,
    FlightCache.timestamp_str file_stem = None
    <-> ~ In "_"%char (list_ascii_of_string file_stem).
Proof.
  intros file_stem. unfold FlightCache.timestamp_str, FlightCache.from_end.
  cbv zeta. split.
  - intros H Hin. apply (split_with_sep "_"%char) in Hin.
    rewrite <- length_rev in Hin.
    destruct (rev (FlightCache.split "_" file_stem)) as [|a [|b l]];
      simpl in Hin; try lia. simpl in H. discriminate H.
  - intros Hfree. rewrite (split_free "_"%char file_stem Hfree). reflexivity.
Qed.

(** ** A report with valid coordinates, end to end *)

Section ValidReport.


End ValidReport.


